(** * examples/external-processing/main.py

    A shallow embedding of the FastAPI demo service that applies one
    configured function of Python's [math] module to a batch of numbers and
    streams the results back as JSON lines, together with the properties of
    it that the specification states.

    Conventions of the embedding:
    - a Python [float] is an IEEE 754 binary64 number, here a primitive
      [float];
    - a Python [str] is a [string] whose characters are read as the code
      points 0..255; [bytes] is a [string] read as octets;
    - a Python [dict] is an association list in insertion order;
    - a raised exception is the [Raise] case of [result];
    - what a generator does is recorded as the list of its events (values
      yielded, text written to standard output) and the way it ended. *)

From Stdlib Require Import ZArith QArith Qround List String Ascii DecimalString Lia.
From Stdlib Require Import PrimFloat FloatOps SpecFloat.
From stdpp Require Import base option list strings gmap.

Set Warnings "-register-all,-clear-no-such-hyp".
Local Open Scope Z_scope.

(** ** The fragment of the Python runtime the program uses *)

Module Py.

(** Built-in exception classes, with the base class of each. *)
Inductive exception_class :=
| BaseException | Exception | KeyboardInterrupt | GeneratorExit
| ArithmeticError | FloatingPointError | OverflowError | ZeroDivisionError
| AssertionError | AttributeError | MemoryError | RuntimeError | RecursionError
| TypeError | ValueError | UnicodeError | UnicodeDecodeError | UnicodeEncodeError.

Definition base_class (c : exception_class) : option exception_class :=
  match c with
  | BaseException => None
  | Exception | KeyboardInterrupt | GeneratorExit => Some BaseException
  | ArithmeticError | AssertionError | AttributeError | MemoryError
  | RuntimeError | TypeError | ValueError => Some Exception
  | FloatingPointError | OverflowError | ZeroDivisionError => Some ArithmeticError
  | RecursionError => Some RuntimeError
  | UnicodeError => Some ValueError
  | UnicodeDecodeError | UnicodeEncodeError => Some UnicodeError
  end.

Definition class_eqb (c d : exception_class) : bool :=
  match c, d with
  | BaseException, BaseException | Exception, Exception
  | KeyboardInterrupt, KeyboardInterrupt | GeneratorExit, GeneratorExit
  | ArithmeticError, ArithmeticError | FloatingPointError, FloatingPointError
  | OverflowError, OverflowError | ZeroDivisionError, ZeroDivisionError
  | AssertionError, AssertionError | AttributeError, AttributeError
  | MemoryError, MemoryError | RuntimeError, RuntimeError
  | RecursionError, RecursionError | TypeError, TypeError
  | ValueError, ValueError | UnicodeError, UnicodeError
  | UnicodeDecodeError, UnicodeDecodeError
  | UnicodeEncodeError, UnicodeEncodeError => true
  | _, _ => false
  end.

(** [issubclass c d]: [d] is [c] or one of its ancestors.  The hierarchy
    above is at most five classes deep. *)
Fixpoint issubclass_upto (depth : nat) (c d : exception_class) : bool :=
  class_eqb c d ||
  match depth, base_class c with
  | S depth', Some b => issubclass_upto depth' b d
  | _, _ => false
  end.

Definition issubclass : exception_class -> exception_class -> bool :=
  issubclass_upto 5.

Record exn := mk_exn { exn_class : exception_class; exn_args : string }.

Definition isinstance (e : exn) (c : exception_class) : bool :=
  issubclass (exn_class e) c.
Arguments issubclass : simpl never.
Arguments isinstance : simpl never.

(** A computation that returns or raises. *)
Inductive result (A : Type) :=
| Ok (a : A)
| Raise (e : exn).
Arguments Ok {A} a.
Arguments Raise {A} e.

Definition bind {A B} (r : result A) (k : A -> result B) : result B :=
  match r with
  | Ok a => k a
  | Raise e => Raise e
  end.

#[global] Instance result_bind : MBind result := fun A B k r => bind r k.

Definition raise {A} (c : exception_class) (msg : string) : result A :=
  Raise (mk_exn c msg).

(** Objects: the values a function of [math] takes and returns.  They are
    all objects that [json.dumps] encodes.  An attribute that returns an
    object of another kind (the module object's own [__eq__], whose
    signature has one parameter too and which returns [NotImplemented])
    is outside this model: for such a result the [json.dumps] of line 47,
    which runs outside the [try] of [calculate_iter], raises a
    [TypeError]. *)
Inductive value :=
| VFloat (f : float)
| VInt (z : Z)
| VBool (b : bool)
| VTuple (items : list value).

(** *** [repr] of integers and floats *)

Definition digits_of_Z (z : Z) : string :=
  NilZero.string_of_uint (N.to_uint (Z.to_N z)).

Definition int_repr (z : Z) : string :=
  if z <? 0 then "-" +:+ digits_of_Z (- z) else digits_of_Z z.

Definition Qlt_bool (a b : Q) : bool := negb (Qle_bool b a).

(** The reals that round to the float [m * 2^e] lie between the midpoints
    to its two neighbours; the lower neighbour is half as far away when
    [m] is the smallest normal significand. *)
Definition boundaries (m : positive) (e : Z) : Q * Q :=
  let x := (inject_Z (Zpos m) * Qpower 2 e)%Q in
  let half := Qpower 2 (e - 1) in
  let below :=
    if (Zpos m =? 2 ^ 52) && (-1074 <? e) then Qpower 2 (e - 2) else half in
  ((x - below)%Q, (x + half)%Q).

(** A midpoint rounds to the neighbour with the even significand. *)
Definition inside (m : positive) (lo hi c : Q) : bool :=
  if Z.even (Zpos m) then Qle_bool lo c && Qle_bool c hi
  else Qlt_bool lo c && Qlt_bool c hi.

Fixpoint scale_up (fuel : nat) (x : Q) (k : Z) : Z :=
  match fuel with
  | O => k
  | S fuel' => if Qle_bool (Qpower 10 k) x then scale_up fuel' x (k + 1) else k
  end.

(** The least [k] with [m * 2^e < 10^k], from an estimate that is at most
    two too small. *)
Definition decimal_point (m : positive) (e : Z) : Z :=
  let x := (inject_Z (Zpos m) * Qpower 2 e)%Q in
  scale_up 4 x ((Z.log2 (Zpos m) + e) * 30103 / 100000 - 1).

(** The [n]-digit decimal nearest to [m * 2^e] among those that round
    back to it, if there is one. *)
Definition candidate (m : positive) (e k n : Z) : option Z :=
  let x := (inject_Z (Zpos m) * Qpower 2 e)%Q in
  let '(lo, hi) := boundaries m e in
  let s := Qpower 10 (k - n) in
  let d := Qfloor (x / s) in
  let down := (inject_Z d * s)%Q in
  let up := (inject_Z (d + 1) * s)%Q in
  match inside m lo hi down, inside m lo hi up with
  | false, false => None
  | true, false => Some d
  | false, true => Some (d + 1)
  | true, true =>
      match ((x - down) ?= (up - x))%Q with
      | Lt => Some d
      | Gt => Some (d + 1)
      | Eq => Some (if Z.even d then d else d + 1)
      end
  end.

Fixpoint shortest (fuel : nat) (m : positive) (e k n : Z) : Z * Z :=
  match fuel with
  | O => (0, n)
  | S fuel' =>
      match candidate m e k n with
      | Some d => (d, n)
      | None => shortest fuel' m e k (n + 1)
      end
  end.

Fixpoint strip_zeros (fuel : nat) (d n : Z) : Z * Z :=
  match fuel with
  | O => (d, n)
  | S fuel' =>
      if (d mod 10 =? 0) && (0 <? d) then strip_zeros fuel' (d / 10) (n - 1)
      else (d, n)
  end.

(** The shortest digit string that reads back as [m * 2^e], and the
    position [decpt] of the decimal point: the value is
    [0.DIGITS * 10^decpt].  Seventeen digits always suffice. *)
Definition dtoa (m : positive) (e : Z) : string * Z :=
  let k := decimal_point m e in
  let '(d, n) := shortest 17 m e k 1 in
  let '(d', n') := strip_zeros 18 d n in
  let ds := digits_of_Z d' in
  (ds, k - n' + Z.of_nat (String.length ds)).

Definition zeros (n : Z) : string :=
  string_of_list_ascii (repeat "0"%char (Z.to_nat n)).

Definition exponent_text (x : Z) : string :=
  (if x <? 0 then "-" else "+") +:+
  (if Z.abs x <? 10 then "0" else "") +:+ digits_of_Z (Z.abs x).

(** The layout [repr] gives the digits: scientific notation when
    [decpt <= -4] or [decpt > 16], positional notation with at least one
    digit after the point otherwise. *)
Definition format_float_short (ds : string) (decpt : Z) : string :=
  let nd := Z.of_nat (String.length ds) in
  if (decpt <=? -4) || (16 <? decpt) then
    String.substring 0 1 ds +:+
    (if 1 <? nd then "." +:+ String.substring 1 (String.length ds - 1) ds else "") +:+
    "e" +:+ exponent_text (decpt - 1)
  else if decpt <=? 0 then
    "0." +:+ zeros (- decpt) +:+ ds
  else if nd <=? decpt then
    ds +:+ zeros (decpt - nd) +:+ ".0"
  else
    String.substring 0 (Z.to_nat decpt) ds +:+ "." +:+
    String.substring (Z.to_nat decpt) (String.length ds - Z.to_nat decpt) ds.

(** [float.__repr__], which is also [str] of a float. *)
Definition float_repr (f : float) : string :=
  match Prim2SF f with
  | S754_nan => "nan"
  | S754_infinity s => if s then "-inf" else "inf"
  | S754_zero s => if s then "-0.0" else "0.0"
  | S754_finite s m e =>
      let '(ds, decpt) := dtoa m e in
      (if s then "-" else "") +:+ format_float_short ds decpt
  end.


Definition is_nan (f : float) : bool := PrimFloat.is_nan f.
Definition is_inf (f : float) : bool := PrimFloat.is_infinity f.

(** [print] of several arguments: the arguments, already turned into text by [str],
    joined by single spaces and ended by a newline. *)
Definition newline : string := String "010"%char EmptyString.

Definition print (args : list string) : string :=
  String.concat " " args +:+ newline.

(** *** Dictionaries with [str] keys, in insertion order *)

Definition dict := list (string * value).

Fixpoint dict_set (d : dict) (k : string) (v : value) : dict :=
  match d with
  | [] => [(k, v)]
  | (k', v') :: d' =>
      if String.eqb k' k then (k', v) :: d' else (k', v') :: dict_set d' k v
  end.

Fixpoint dict_get (d : dict) (k : string) : option value :=
  match d with
  | [] => None
  | (k', v') :: d' => if String.eqb k' k then Some v' else dict_get d' k
  end.

(** [{**items}] and [d.update(items)]: set the items one by one. *)
Definition dict_update (d : dict) (items : dict) : dict :=
  fold_left (fun acc kv => dict_set acc (fst kv) (snd kv)) items d.

(** *** [json.dumps] with the compact separators, comma and colon *)

Definition dquote : ascii := "034"%char.
Definition backslash : ascii := "092"%char.

Definition hex_digit (n : N) : ascii :=
  match String.get (N.to_nat n) "0123456789abcdef" with
  | Some c => c
  | None => "0"%char
  end.

Definition escaped (c : ascii) : string := String backslash (String c EmptyString).

(** [ESCAPE_ASCII] and [ESCAPE_DCT] of [json.encoder]: everything but
    the printable ASCII characters is escaped, and so are the quote and
    the backslash. *)
Definition escape_ascii (c : ascii) : string :=
  match N_of_ascii c with
  | 34%N => escaped dquote
  | 92%N => escaped backslash
  | 8%N => escaped "b"
  | 12%N => escaped "f"
  | 10%N => escaped "n"
  | 13%N => escaped "r"
  | 9%N => escaped "t"
  | n =>
      if ((32 <=? n) && (n <=? 126))%N then String c EmptyString
      else String backslash
             ("u00" +:+ String (hex_digit (n / 16)) (String (hex_digit (n mod 16)) EmptyString))
  end.

Fixpoint concat_map (f : ascii -> string) (s : string) : string :=
  match s with
  | EmptyString => EmptyString
  | String c s' => f c +:+ concat_map f s'
  end.

Definition encode_basestring_ascii (s : string) : string :=
  String dquote (concat_map escape_ascii s) +:+ String dquote EmptyString.

(** [floatstr] of [json.encoder], with [allow_nan] left at [True]. *)
Definition floatstr (o : float) : string :=
  if is_nan o then "NaN"
  else if PrimFloat.eqb o infinity then "Infinity"
  else if PrimFloat.eqb o neg_infinity then "-Infinity"
  else float_repr o.

Fixpoint json_encode (o : value) : string :=
  match o with
  | VFloat f => floatstr f
  | VInt z => int_repr z
  | VBool b => if b then "true" else "false"
  | VTuple items => "[" +:+ String.concat "," (List.map json_encode items) +:+ "]"
  end.

Definition json_item (kv : string * value) : string :=
  encode_basestring_ascii (fst kv) +:+ ":" +:+ json_encode (snd kv).

Definition json_dumps (d : dict) : string :=
  "{" +:+ String.concat "," (List.map json_item d) +:+ "}".

(** [str.encode("utf8")] on code points below 256. *)
Definition encode_utf8_char (c : ascii) : string :=
  let n := N_of_ascii c in
  if (n <? 128)%N then String c EmptyString
  else String (ascii_of_N (192 + n / 64))
         (String (ascii_of_N (128 + n mod 64)) EmptyString).

Definition encode_utf8 (s : string) : string := concat_map encode_utf8_char s.

(** *** Module attributes, built-in functions and [inspect.signature] *)

Inductive parameter_kind :=
| POSITIONAL_ONLY | POSITIONAL_OR_KEYWORD | VAR_POSITIONAL | KEYWORD_ONLY | VAR_KEYWORD.

Record parameter := { param_name : string; param_kind : parameter_kind }.

(** A built-in function: its name, the parameters of its text signature
    (some built-ins have none, and [inspect.signature] fails on them) and
    what a call does. *)
Record builtin := {
  builtin_name : string;
  text_signature : option (list parameter);
  builtin_call : list value -> result value
}.

Inductive object :=
| Data (v : value)
| Builtin (b : builtin).

Definition module := gmap string object.

(** [getattr(module, name)] *)
Definition getattr (module_name : string) (m : module) (name : string) : result object :=
  match m !! name with
  | Some o => Ok o
  | None =>
      raise AttributeError
        ("module '" +:+ module_name +:+ "' has no attribute '" +:+ name +:+ "'")
  end.

(** [repr] of a value; a tuple of one item keeps a trailing comma. *)
Fixpoint repr (o : value) : string :=
  match o with
  | VFloat f => float_repr f
  | VInt z => int_repr z
  | VBool b => if b then "True" else "False"
  | VTuple [item] => "(" +:+ repr item +:+ ",)"
  | VTuple items => "(" +:+ String.concat ", " (List.map repr items) +:+ ")"
  end.

(** [inspect.signature(obj).parameters] *)
Definition signature_parameters (o : object) : result (list parameter) :=
  match o with
  | Data v => raise TypeError (repr v +:+ " is not a callable object")
  | Builtin b =>
      match text_signature b with
      | Some ps => Ok ps
      | None =>
          raise ValueError
            ("no signature found for builtin <built-in function " +:+ builtin_name b +:+ ">")
      end
  end.

(** Calling an object with positional arguments. *)
Definition call (o : object) (args : list value) : result value :=
  match o with
  | Builtin b => builtin_call b args
  | Data _ => raise TypeError "object is not callable"
  end.

(** *** Generators *)

(** What a generator does while it is run to its end: it yields values
    and writes to standard output, in some order, and then it either is
    exhausted or raises. *)
Inductive event (A : Type) :=
| Yield (a : A)
| Stdout (text : string).
Arguments Yield {A} a.
Arguments Stdout {A} text.

Record trace (A : Type) := mk_trace { events : list (event A); raised : option exn }.
Arguments mk_trace {A} events raised.
Arguments events {A} t.
Arguments raised {A} t.

Definition exhausted {A} : trace A := mk_trace [] None.
Definition propagate {A} (e : exn) : trace A := mk_trace [] (Some e).
Definition emit {A} (ev : event A) (t : trace A) : trace A :=
  mk_trace (ev :: events t) (raised t).

Definition yielded {A} (t : trace A) : list A :=
  omap (fun ev => match ev with Yield a => Some a | Stdout _ => None end) (events t).

Definition written {A} (t : trace A) : list string :=
  omap (fun ev => match ev with Stdout s => Some s | Yield _ => None end) (events t).

(** [(f(a) for a in gen)] *)
Definition genexpr {A B} (f : A -> B) (t : trace A) : trace B :=
  mk_trace
    (List.map (fun ev => match ev with Yield a => Yield (f a) | Stdout s => Stdout s end)
       (events t))
    (raised t).

End Py.


(** ** A fragment of the [math] module

    The functions of CPython's [math] whose results can be computed
    exactly on binary64 numbers, with the text signatures that
    [inspect.signature] reports for them, and the module's constants. *)

Module math.
Import Py.

Definition float_of_Z (z : Z) : float := SF2Prim (binary_normalize prec emax z 0 false).

Definition type_name (o : value) : string :=
  match o with
  | VFloat _ => "float"
  | VInt _ => "int"
  | VBool _ => "bool"
  | VTuple _ => "tuple"
  end.

(** [PyFloat_AsDouble] *)
Definition as_double (o : value) : result float :=
  match o with
  | VFloat f => Ok f
  | VInt z =>
      let f := float_of_Z z in
      if is_inf f then raise OverflowError "int too large to convert to float" else Ok f
  | VBool b => Ok (if b then one else zero)
  | VTuple _ => raise TypeError ("must be real number, not " +:+ type_name o)
  end.

(** [PyNumber_Index] *)
Definition as_index (o : value) : result Z :=
  match o with
  | VInt z => Ok z
  | VBool b => Ok (if b then 1 else 0)
  | _ => raise TypeError ("'" +:+ type_name o +:+ "' object cannot be interpreted as an integer")
  end.

(** A function declared with one positional argument. *)
Definition one_argument (name : string) (f : value -> result value)
    (args : list value) : result value :=
  match args with
  | [a] => f a
  | _ =>
      raise TypeError
        ("math." +:+ name +:+ "() takes exactly one argument (" +:+
         int_repr (Z.of_nat (List.length args)) +:+ " given)")
  end.

(** [math_1]: a libm function of one argument, with the error checks the
    module adds. *)
Definition math_1 (func : float -> float) (can_overflow : bool) (o : value) : result value :=
  x ← as_double o;
  let r := func x in
  if is_nan r && negb (is_nan x) then raise ValueError "math domain error"
  else if is_inf r && PrimFloat.is_finite x then
    if can_overflow then raise OverflowError "math range error"
    else raise ValueError "math domain error"
  else Ok (VFloat r).

(** [PyLong_FromDouble] after rounding the float [s m * 2^e] to an
    integer with [round]. *)
Definition long_from_double (round : bool -> positive -> Z -> Z) (o : value) : result value :=
  match o with
  | VInt z => Ok (VInt z)
  | VBool b => Ok (VInt (if b then 1 else 0))
  | VTuple _ => raise TypeError ("must be real number, not " +:+ type_name o)
  | VFloat f =>
      match Prim2SF f with
      | S754_nan => raise ValueError "cannot convert float NaN to integer"
      | S754_infinity _ => raise OverflowError "cannot convert float infinity to integer"
      | S754_zero _ => Ok (VInt 0)
      | S754_finite s m e => Ok (VInt (round s m e))
      end
  end.

Definition round_floor (s : bool) (m : positive) (e : Z) : Z :=
  Z.shiftl (cond_Zopp s (Zpos m)) e.
Definition round_ceil (s : bool) (m : positive) (e : Z) : Z :=
  - Z.shiftl (cond_Zopp (negb s) (Zpos m)) e.
Definition round_trunc (s : bool) (m : positive) (e : Z) : Z :=
  cond_Zopp s (Z.shiftl (Zpos m) e).

Definition classify (test : float -> bool) (o : value) : result value :=
  x ← as_double o; Ok (VBool (test x)).

Definition isqrt_impl (o : value) : result value :=
  n ← as_index o;
  if n <? 0 then raise ValueError "isqrt() argument must be nonnegative"
  else Ok (VInt (Z.sqrt n)).

Fixpoint gcd_all (args : list value) : result Z :=
  match args with
  | [] => Ok 0
  | a :: rest => n ← as_index a; g ← gcd_all rest; Ok (Z.gcd n g)
  end.

Definition gcd_impl (args : list value) : result value :=
  g ← gcd_all args; Ok (VInt g).

Definition copysign_impl (args : list value) : result value :=
  match args with
  | [a; b] =>
      x ← as_double a; y ← as_double b;
      Ok (VFloat (if get_sign y then PrimFloat.opp (PrimFloat.abs x) else PrimFloat.abs x))
  | _ =>
      raise TypeError
        ("copysign expected 2 arguments, got " +:+ int_repr (Z.of_nat (List.length args)))
  end.

Definition positional (name : string) : parameter :=
  {| param_name := name; param_kind := POSITIONAL_ONLY |}.

Definition unary (name param : string) (f : value -> result value) : object :=
  Builtin {| builtin_name := name;
             text_signature := Some [positional param];
             builtin_call := one_argument name f |}.

Definition sqrt : object := unary "sqrt" "x" (math_1 PrimFloat.sqrt false).
Definition fabs : object := unary "fabs" "x" (math_1 PrimFloat.abs false).
Definition floor : object := unary "floor" "x" (long_from_double round_floor).
Definition ceil : object := unary "ceil" "x" (long_from_double round_ceil).
Definition trunc : object := unary "trunc" "x" (long_from_double round_trunc).
Definition isnan : object := unary "isnan" "x" (classify is_nan).
Definition isinf : object := unary "isinf" "x" (classify is_inf).
Definition isfinite : object := unary "isfinite" "x" (classify PrimFloat.is_finite).
Definition isqrt : object := unary "isqrt" "n" isqrt_impl.

Definition gcd : object :=
  Builtin {| builtin_name := "gcd";
             text_signature :=
               Some [{| param_name := "integers"; param_kind := VAR_POSITIONAL |}];
             builtin_call := gcd_impl |}.

Definition copysign : object :=
  Builtin {| builtin_name := "copysign";
             text_signature := Some [positional "x"; positional "y"];
             builtin_call := copysign_impl |}.

Definition pi : float := 0x1.921fb54442d18p+1%float.
Definition e : float := 0x1.5bf0a8b145769p+1%float.
Definition tau : float := 0x1.921fb54442d18p+2%float.

Definition attributes : list (string * object) :=
  [ ("sqrt", sqrt); ("fabs", fabs); ("floor", floor); ("ceil", ceil);
    ("trunc", trunc); ("isnan", isnan); ("isinf", isinf);
    ("isfinite", isfinite); ("isqrt", isqrt); ("gcd", gcd);
    ("copysign", copysign);
    ("pi", Data (VFloat pi)); ("e", Data (VFloat e)); ("tau", Data (VFloat tau));
    ("inf", Data (VFloat infinity)); ("nan", Data (VFloat nan)) ].

Definition module : Py.module := list_to_map attributes.

End math.

(** ** Starlette's [StreamingResponse], as far as the endpoint uses it *)

Module starlette.
Import Py.

(** The response object.  The constructor's optional arguments are
    [status_code=200], [headers=None], [media_type=None] and
    [background=None]; the endpoint passes [content] only. *)
Record StreamingResponse := {
  status_code : Z;
  media_type : option string;
  body_iterator : trace string
}.

Definition new_StreamingResponse (content : trace string)
    (status_code : Z) (media_type : option string) : StreamingResponse :=
  {| status_code := status_code; media_type := media_type; body_iterator := content |}.

Definition default_status_code : Z := 200.
Definition default_media_type : option string := None.

(** [init_headers]: a content-type header is sent only for a media type
    that is not [None]; a text type gets the charset appended. *)
Definition content_type_header (r : StreamingResponse) : option string :=
  match media_type r with
  | None => None
  | Some t => Some (if String.prefix "text/" t then t +:+ "; charset=utf-8" else t)
  end.

(** What a client and the operator see of one request: the response
    start is sent first, then one body message per chunk of the iterator
    while its output goes to the log, and an exception from the iterator
    ends the exchange. *)
Record exchange := {
  status : Z;
  content_type : option string;
  body : list string;
  log : list string;
  server_error : option exn
}.

Definition stream_response (r : StreamingResponse) : exchange :=
  {| status := status_code r;
     content_type := content_type_header r;
     body := yielded (body_iterator r);
     log := written (body_iterator r);
     server_error := raised (body_iterator r) |}.

End starlette.

(** ** main.py *)

Module main.
Import Py starlette.

(** [class Value(BaseModel)]: a wrapped input value. *)
Record Value := { x : float }.

(** [value.dict()] *)
Definition Value_dict (value : Value) : dict := [("x", VFloat (x value))].

(** The names the module body binds before the handlers are defined. *)
Record globals := { expression : string; fn : object }.

(** Lines 21 to 25: read [EXPR], look the function up, check its arity.
    [os.getenv] gives [None] for a variable that is not set, and
    [getattr] refuses a name that is not a string. *)
Definition module_body (math : module) (environ : gmap string string) : result globals :=
  match environ !! "EXPR" with
  | None => raise TypeError "attribute name must be string, not 'NoneType'"
  | Some expression =>
      fn ← getattr "math" math expression;
      parameters ← signature_parameters fn;
      if Nat.eqb (List.length parameters) 1
      then Ok {| expression := expression; fn := fn |}
      else raise AssertionError
             ("Function " +:+ expression +:+ " doesn't expect exactly one argument")
  end.

Section Handlers.
Variable g : globals.

(** The operand of [yield] on line 38. *)
Definition result_dict (value : Value) : result dict :=
  let d := dict_update [] (Value_dict value) in
  r ← call (fn g) [VFloat (x value)];
  Ok (dict_set d (expression g) r).

(** The text printed on line 40. *)
Definition diagnostic (value : Value) : string :=
  print ["Value is not a valid input for " +:+ expression g +:+ "(x)";
         float_repr (x value)].

(** [calculate_iter], run to its end. *)
Fixpoint calculate_iter (values : list Value) : trace dict :=
  match values with
  | [] => exhausted
  | value :: rest =>
      match result_dict value with
      | Ok d => emit (Yield d) (calculate_iter rest)
      | Raise e =>
          if isinstance e ValueError
          then emit (Stdout (diagnostic value)) (calculate_iter rest)
          else propagate e
      end
  end.

(** The same generator as a transition system, one pass through the loop
    body at a time: a suspended generator holds the records still to be
    read, a closed one has returned or raised. *)
Inductive generator :=
| Suspended (pending : list Value)
| Closed (error : option exn).

Inductive step : generator -> list (event dict) -> generator -> Prop :=
| step_yield value rest d :
    result_dict value = Ok d ->
    step (Suspended (value :: rest)) [Yield d] (Suspended rest)
| step_skip value rest e :
    result_dict value = Raise e ->
    isinstance e ValueError = true ->
    step (Suspended (value :: rest)) [Stdout (diagnostic value)] (Suspended rest)
| step_raise value rest e :
    result_dict value = Raise e ->
    isinstance e ValueError = false ->
    step (Suspended (value :: rest)) [] (Closed (Some e))
| step_return :
    step (Suspended []) [] (Closed None).

Inductive steps : generator -> list (event dict) -> generator -> Prop :=
| steps_done s : steps s [] s
| steps_more s evs s' evs' s'' :
    step s evs s' -> steps s' evs' s'' -> steps s (evs ++ evs') s''.

Definition runs (values : list Value) (t : trace dict) : Prop :=
  steps (Suspended values) (events t) (Closed (raised t)).

(** One line of the body, lines 47 and 48. *)
Definition ndjson_line (result : dict) : string :=
  encode_utf8 (json_dumps result +:+ newline).

(** [calculate]: the handler of [POST /calculate]. *)
Definition calculate (values : list Value) : StreamingResponse :=
  new_StreamingResponse
    (genexpr ndjson_line (calculate_iter values))
    default_status_code default_media_type.

End Handlers.

(** The process: importing the module either raises, and no application
    is served, or leaves the application with its one route. *)
Inductive process :=
| Crashed (e : exn)
| Serving (g : globals).

Definition start (math : module) (environ : gmap string string) : process :=
  match module_body math environ with
  | Ok g => Serving g
  | Raise e => Crashed e
  end.

(** A request to [POST /calculate] whose body has been validated into
    [values]. *)
Definition post_calculate (p : process) (values : list Value) : option exchange :=
  match p with
  | Crashed _ => None
  | Serving g => Some (stream_response (calculate g values))
  end.

(** *** What the specification's words mean on this model *)

(** The test of lines 23 to 25: the configured name is a function of
    the module whose signature has exactly one parameter, of whatever
    kind. *)
Definition single_parameter_function (math : module) (name : string) : Prop :=
  exists b p, math !! name = Some (Builtin b) /\ text_signature b = Some [p].

(** A function of arity exactly one: every call with another number of
    arguments is refused with a [TypeError]. *)
Definition arity_is_one (o : object) : Prop :=
  (exists b, o = Builtin b) /\
  forall args, List.length args <> 1%nat ->
               exists msg, call o args = Raise (mk_exn TypeError msg).

(** The computation on a record raises a domain error. *)
Definition domain_error (g : globals) (value : Value) : bool :=
  match result_dict g value with
  | Raise e => isinstance e ValueError
  | Ok _ => false
  end.

(** The computation on a record raises some other error. *)
Definition other_error (g : globals) (value : Value) : bool :=
  match result_dict g value with
  | Raise e => negb (isinstance e ValueError)
  | Ok _ => false
  end.

(** The record a successful computation gives, if it is one. *)
Definition computed (g : globals) (value : Value) : option dict :=
  match result_dict g value with
  | Ok d => Some d
  | Raise _ => None
  end.

End main.

Import Py starlette main.

(** ** The configurations of the scenarios *)

Definition sqrt_globals : globals := {| expression := "sqrt"; fn := math.sqrt |}.
Definition floor_globals : globals := {| expression := "floor"; fn := math.floor |}.
Definition gcd_globals : globals := {| expression := "gcd"; fn := math.gcd |}.

Definition quoted (s : string) : string :=
  String dquote s +:+ String dquote EmptyString.

(** ** Text that stays on one line

    A printable ASCII character is one from the space to the tilde; a text
    of such characters has no line break and no other control character,
    and is its own UTF-8 encoding. *)

Definition printable_char (c : ascii) : bool :=
  ((32 <=? N_of_ascii c) && (N_of_ascii c <=? 126))%N.

Fixpoint printable (s : string) : bool :=
  match s with
  | EmptyString => true
  | String c s' => printable_char c && printable s'
  end.

(** ** Reading a run and a response *)

(** The one event of a record whose computation raises nothing but a
    domain error: the record it yields, or else its diagnostic. *)
Definition record_event (g : globals) (value : Value) : event dict :=
  match computed g value with
  | Some d => Yield d
  | None => Stdout (diagnostic g value)
  end.

(** The bytes a client has received once the chunks have arrived. *)
Definition received (chunks : list string) : string :=
  List.fold_right String.append EmptyString chunks.

(** A client cutting what it received at the line breaks: [pending] is
    the text read since the last one. *)
Fixpoint split_lines (pending : string) (s : string) : list string :=
  match s with
  | EmptyString => match pending with EmptyString => [] | _ => [pending] end
  | String c s' =>
      if Ascii.eqb c "010"%char then pending :: split_lines EmptyString s'
      else split_lines (pending +:+ String c EmptyString) s'
  end.

(** A name [json.dumps] writes as it is between quotes: printable ASCII
    without quote or backslash, as every identifier is. *)
Definition plain_char (c : ascii) : bool :=
  printable_char c && negb (Ascii.eqb c dquote) && negb (Ascii.eqb c backslash).

Fixpoint plain (s : string) : bool :=
  match s with
  | EmptyString => true
  | String c s' => plain_char c && plain s'
  end.

(** Splits the goal on every test of a conditional in it. *)
Ltac case_conditionals :=
  repeat match goal with
         | |- context [if ?b then _ else _] => destruct b
         end.

(** * Properties *)

(** ** The exception hierarchy *)

Lemma class_eqb_eq c d : class_eqb c d = true <-> c = d.
Proof. split; [destruct c, d; simpl; congruence | intros ->; destruct d; reflexivity]. Qed.

Lemma issubclass_refl c : issubclass c c = true.
Proof. destruct c; reflexivity. Qed.

Lemma issubclass_ValueError c :
  issubclass c ValueError = true <->
  c = ValueError \/ c = UnicodeError \/ c = UnicodeDecodeError \/ c = UnicodeEncodeError.
Proof.
  split.
  - destruct c; vm_compute; intros H; try discriminate H; auto.
  - intros [-> | [-> | [-> | ->]]]; reflexivity.
Qed.

(** ** Traces *)

Section Traces.
Context {A : Type}.
Implicit Types (t : trace A) (ev : event A).

Lemma yielded_emit_yield a t : yielded (emit (Yield a) t) = a :: yielded t.
Proof. reflexivity. Qed.

Lemma yielded_emit_stdout s t : yielded (emit (Stdout s) t) = yielded t.
Proof. reflexivity. Qed.

Lemma yielded_events_app (evs evs' : list (event A)) r r' :
  yielded (mk_trace (evs ++ evs') r) = yielded (mk_trace evs r') ++ yielded (mk_trace evs' r).
Proof. unfold yielded; simpl. apply omap_app. Qed.

Lemma yielded_genexpr {B} (f : A -> B) t : yielded (genexpr f t) = List.map f (yielded t).
Proof.
  unfold yielded, genexpr; simpl.
  induction (events t) as [|[a|s] evs IH]; simpl; [reflexivity | | exact IH].
  f_equal. exact IH.
Qed.

Lemma written_genexpr {B} (f : A -> B) t : written (genexpr f t) = written t.
Proof.
  unfold written, genexpr; simpl.
  induction (events t) as [|[a|s] evs IH]; simpl; [reflexivity | exact IH |].
  f_equal. exact IH.
Qed.
End Traces.

(** ** The streaming calculator *)

Section Calculator.
Variable g : globals.

Lemma result_dict_spec value :
  result_dict g value =
  match call (fn g) [VFloat (x value)] with
  | Ok r => Ok (dict_set (Value_dict value) (expression g) r)
  | Raise e => Raise e
  end.
Proof. unfold result_dict. destruct (call _ _); reflexivity. Qed.

Lemma computed_spec value d :
  computed g value = Some d <->
  exists r, call (fn g) [VFloat (x value)] = Ok r /\
            d = dict_set (Value_dict value) (expression g) r.
Proof.
  unfold computed. rewrite result_dict_spec.
  destruct (call _ _) as [r|e]; split.
  - intros [= <-]. eauto.
  - intros (r' & [= <-] & ->). reflexivity.
  - discriminate.
  - intros (r' & [=] & _).
Qed.

Lemma calculate_iter_cons_ok value rest d :
  result_dict g value = Ok d ->
  calculate_iter g (value :: rest) = emit (Yield d) (calculate_iter g rest).
Proof. intros H. simpl. rewrite H. reflexivity. Qed.

Lemma calculate_iter_cons_skip value rest e :
  result_dict g value = Raise e -> isinstance e ValueError = true ->
  calculate_iter g (value :: rest) = emit (Stdout (diagnostic g value)) (calculate_iter g rest).
Proof. intros H He. simpl. rewrite H, He. reflexivity. Qed.

Lemma calculate_iter_cons_raise value rest e :
  result_dict g value = Raise e -> isinstance e ValueError = false ->
  calculate_iter g (value :: rest) = propagate e.
Proof. intros H He. simpl. rewrite H, He. reflexivity. Qed.

(** A batch whose first part raises nothing but domain errors runs that
    part and then the rest. *)
Lemma calculate_iter_app pre post :
  Forall (fun value => other_error g value = false) pre ->
  calculate_iter g (pre ++ post) =
  mk_trace (events (calculate_iter g pre) ++ events (calculate_iter g post))
           (raised (calculate_iter g post)).
Proof.
  induction 1 as [|value pre Hv _ IH]; simpl.
  - destruct (calculate_iter g post); reflexivity.
  - unfold other_error in Hv.
    destruct (result_dict g value) as [d|e]; [rewrite IH; reflexivity|].
    destruct (isinstance e ValueError); [rewrite IH; reflexivity | discriminate].
Qed.

Lemma calculate_iter_finishes values :
  Forall (fun value => other_error g value = false) values ->
  raised (calculate_iter g values) = None.
Proof.
  induction 1 as [|value rest Hv _ IH]; simpl; [reflexivity|].
  unfold other_error in Hv.
  destruct (result_dict g value) as [d|e]; [exact IH|].
  destruct (isinstance e ValueError); [exact IH | discriminate].
Qed.

Lemma yielded_calculate_iter values :
  Forall (fun value => other_error g value = false) values ->
  yielded (calculate_iter g values) = omap (computed g) values.
Proof.
  induction 1 as [|value rest Hv _ IH]; cbn; [reflexivity|].
  unfold other_error in Hv. unfold computed at 1.
  destruct (result_dict g value) as [d|e].
  - rewrite yielded_emit_yield, IH. reflexivity.
  - destruct (isinstance e ValueError); [|discriminate].
    rewrite yielded_emit_stdout. exact IH.
Qed.

Lemma length_omap_computed values :
  Forall (fun value => other_error g value = false) values ->
  List.length (omap (computed g) values) =
  List.length (List.filter (fun value => negb (domain_error g value)) values).
Proof.
  induction 1 as [|value rest Hv _ IH]; cbn; [reflexivity|].
  unfold other_error in Hv. unfold computed at 1, domain_error at 1.
  destruct (result_dict g value) as [d|e]; cbn; [by rewrite IH|].
  destruct (isinstance e ValueError); [exact IH | discriminate].
Qed.

(** Whatever happens, the records yielded are computed records of the
    batch, in its order. *)
Lemma yielded_sublist values :
  sublist (yielded (calculate_iter g values)) (omap (computed g) values).
Proof.
  induction values as [|value rest IH]; cbn; [constructor|].
  unfold computed at 1.
  destruct (result_dict g value) as [d|e].
  - rewrite yielded_emit_yield. by constructor.
  - destruct (isinstance e ValueError); [exact IH|].
    apply sublist_nil_l.
Qed.

End Calculator.

Lemma string_app_cons (ch : ascii) (a b : string) : String ch a +:+ b = String ch (a +:+ b).
Proof. reflexivity. Qed.

Lemma string_app_assoc (a b c : string) : (a +:+ b) +:+ c = a +:+ b +:+ c.
Proof.
  induction a as [|ch a IH]; [reflexivity|].
  rewrite !string_app_cons. f_equal. exact IH.
Qed.

Lemma diagnostic_text g value :
  diagnostic g value =
  "Value is not a valid input for " +:+ expression g +:+ "(x)" +:+ " " +:+
  float_repr (x value) +:+ newline.
Proof.
  unfold diagnostic, print. cbn [String.concat].
  rewrite !string_app_assoc. reflexivity.
Qed.

(** *** The generator, step by step *)

Section Steps.
Variable g : globals.

Lemma step_deterministic s evs1 s1 evs2 s2 :
  step g s evs1 s1 -> step g s evs2 s2 -> evs1 = evs2 /\ s1 = s2.
Proof.
  intros H1 H2.
  destruct H1; inversion H2; subst; split; congruence.
Qed.

Lemma closed_is_final error evs s : ~ step g (Closed error) evs s.
Proof. inversion 1. Qed.

Lemma steps_closed error evs s :
  steps g (Closed error) evs s -> evs = [] /\ s = Closed error.
Proof.
  inversion 1; subst; [split; reflexivity|].
  exfalso. eapply closed_is_final; eassumption.
Qed.

(** Two runs from the same state to the end agree. *)
Lemma steps_deterministic s evs1 error1 :
  steps g s evs1 (Closed error1) ->
  forall evs2 error2, steps g s evs2 (Closed error2) ->
  evs1 = evs2 /\ error1 = error2.
Proof.
  intros H. remember (Closed error1) as final eqn:Hfinal.
  induction H as [s|s evs s' evs' s'' Hstep Hsteps IH]; intros evs2 error2 H2.
  - subst s. apply steps_closed in H2 as [-> [= <-]]. split; reflexivity.
  - inversion H2 as [|? evs0 s0 evs0' ? Hstep2 Hsteps2]; subst.
    + exfalso. eapply closed_is_final; eassumption.
    + destruct (step_deterministic _ _ _ _ _ Hstep Hstep2) as [-> ->].
      destruct (IH eq_refl _ _ Hsteps2) as [-> ->]. split; reflexivity.
Qed.

(** The run the function computes is a run of the generator. *)
Lemma calculate_iter_runs values : runs g values (calculate_iter g values).
Proof.
  unfold runs. induction values as [|value rest IH].
  - simpl. apply (steps_more g _ [] (Closed None) []); constructor.
  - simpl. destruct (result_dict g value) as [d|e] eqn:Hd.
    + apply (steps_more g _ [Yield d] (Suspended rest)); [by constructor | exact IH].
    + destruct (isinstance e ValueError) eqn:He.
      * apply (steps_more g _ [Stdout (diagnostic g value)] (Suspended rest));
          [by econstructor | exact IH].
      * apply (steps_more g _ [] (Closed (Some e)) []); [by constructor | constructor].
Qed.

End Steps.

(** ** The claims about the streaming calculator *)

(** C1, as amended: on every input list none of whose records raises an
    error other than a domain error, the calculator yields exactly the
    records computed from the inputs that are in the function's domain, one
    for each and in input order, the function being applied to each
    record's [x]; an input that raises a domain error has no output
    record; and the generator ends normally. *)
Theorem calculate_iter_one_output_per_valid_input (g : globals) (values : list Value) :
  Forall (fun value => other_error g value = false) values ->
  yielded (calculate_iter g values) = omap (computed g) values /\
  (forall value d, computed g value = Some d <->
     exists r, call (fn g) [VFloat (x value)] = Ok r /\
               d = dict_set (Value_dict value) (expression g) r) /\
  List.length (yielded (calculate_iter g values)) =
    List.length (List.filter (fun value => negb (domain_error g value)) values) /\
  Forall (fun value => domain_error g value = true -> computed g value = None) values /\
  raised (calculate_iter g values) = None.
Proof.
  intros H. repeat split.
  - by apply yielded_calculate_iter.
  - by apply computed_spec.
  - by apply computed_spec.
  - rewrite yielded_calculate_iter by done. by apply length_omap_computed.
  - apply Forall_forall. intros value _. unfold domain_error, computed.
    destruct (result_dict g value); [discriminate | reflexivity].
  - by apply calculate_iter_finishes.
Qed.

Lemma calculate_iter_one_output_per_valid_input_witness :
  let values := [ {| x := 4 |}; {| x := -1 |}; {| x := 9 |} ] in
  Forall (fun value => other_error sqrt_globals value = false) values /\
  yielded (calculate_iter sqrt_globals values) = omap (computed sqrt_globals) values.
Proof.
  assert (H : Forall (fun value => other_error sqrt_globals value = false)
                [ {| x := 4 |}; {| x := -1 |}; {| x := 9 |} ]).
  { repeat constructor; vm_compute; reflexivity. }
  split; [exact H|].
  exact (proj1 (calculate_iter_one_output_per_valid_input sqrt_globals _ H)).
Defined.

(** C1, as stated, fails: with [floor] configured, neither the record
    [inf] (which a request body can spell, as 1e999) nor the record [1.0]
    raises a domain error, and [1.0] is in the function's domain, yet the
    batch of the two has no output record: [floor] raises an
    [OverflowError] on the first. *)
Lemma calculate_iter_stops_at_other_error :
  let values := [ {| x := infinity |}; {| x := 1 |} ] in
  start math.module {[ "EXPR" := "floor" ]} = Serving floor_globals /\
  List.map (domain_error floor_globals) values = [false; false] /\
  computed floor_globals {| x := 1 |} = Some [("x", VFloat 1); ("floor", VInt 1)] /\
  yielded (calculate_iter floor_globals values) = [] /\
  List.length (yielded (calculate_iter floor_globals values)) <>
    List.length (List.filter (fun value => negb (domain_error floor_globals value)) values).
Proof.
  cbv zeta. split; [reflexivity|].
  split; [vm_compute; reflexivity|].
  split; [vm_compute; reflexivity|].
  split; [vm_compute; reflexivity|].
  vm_compute. discriminate.
Qed.

(** C5: the calculator never yields more records than it was given, and
    the response has no more lines than that, whether or not the run ends
    in an error. *)
Theorem calculate_iter_length (g : globals) (values : list Value) :
  (List.length (yielded (calculate_iter g values)) <= List.length values)%nat /\
  (List.length (body (stream_response (calculate g values))) <= List.length values)%nat.
Proof.
  assert (H : (List.length (yielded (calculate_iter g values)) <= List.length values)%nat).
  { etransitivity; [apply sublist_length, yielded_sublist|].
    induction values as [|value rest IH]; cbn; [lia|].
    destruct (computed g value); cbn; lia. }
  split; [exact H|].
  unfold stream_response, calculate; simpl.
  rewrite yielded_genexpr, length_map. exact H.
Qed.

(** What a request gets, in terms of the run of the generator. *)
Lemma stream_response_calculate (g : globals) (values : list Value) :
  stream_response (calculate g values) =
  {| status := 200;
     content_type := None;
     body := List.map ndjson_line (yielded (calculate_iter g values));
     log := written (calculate_iter g values);
     server_error := raised (calculate_iter g values) |}.
Proof.
  unfold stream_response, calculate, new_StreamingResponse, content_type_header.
  cbn [status_code media_type body_iterator default_media_type].
  rewrite yielded_genexpr, written_genexpr. reflexivity.
Qed.

(** C2: when the function raises on a record, after records that raised
    nothing but domain errors, then: if the error is a [ValueError] the
    calculator prints exactly one diagnostic, which carries the offending
    value, yields nothing for the record and goes on with the rest; if it
    is an error of any other class the generator raises it, nothing is
    yielded for this or any later record, and the response ends with that
    error after the lines of the earlier records. *)
Theorem calculate_iter_error_handling
    (g : globals) (pre : list Value) (value : Value) (rest : list Value) (e : exn) :
  Forall (fun value' => other_error g value' = false) pre ->
  result_dict g value = Raise e ->
  let t := calculate_iter g (pre ++ value :: rest) in
  let before := calculate_iter g pre in
  let after := calculate_iter g rest in
  (isinstance e ValueError = true ->
     events t = events before ++ Stdout (diagnostic g value) :: events after /\
     raised t = raised after /\
     yielded t = yielded before ++ yielded after /\
     diagnostic g value =
       "Value is not a valid input for " +:+ expression g +:+ "(x)" +:+ " " +:+
       float_repr (x value) +:+ newline) /\
  (isinstance e ValueError = false ->
     events t = events before /\
     raised t = Some e /\
     server_error (stream_response (calculate g (pre ++ value :: rest))) = Some e /\
     body (stream_response (calculate g (pre ++ value :: rest))) =
       List.map (ndjson_line) (yielded before)).
Proof.
  intros Hpre Hraise t before after. subst t before after.
  rewrite (calculate_iter_app g pre (value :: rest) Hpre).
  split; intros He.
  - rewrite (calculate_iter_cons_skip g value rest e Hraise He). cbn [events raised emit].
    repeat split.
    + rewrite (yielded_events_app _ _ _ (raised (calculate_iter g pre))).
      destruct (calculate_iter g pre) as [evs r], (calculate_iter g rest) as [evs' r'].
      reflexivity.
    + apply diagnostic_text.
  - rewrite (calculate_iter_cons_raise g value rest e Hraise He). cbn [events raised propagate].
    rewrite app_nil_r, stream_response_calculate. cbn [server_error body].
    rewrite (calculate_iter_app g pre (value :: rest) Hpre).
    rewrite (calculate_iter_cons_raise g value rest e Hraise He). cbn [events raised propagate].
    rewrite app_nil_r. repeat split.
Qed.

Lemma calculate_iter_error_handling_witness :
  let skipping := calculate_iter sqrt_globals ([ {| x := 4 |} ] ++ {| x := -1 |} :: [ {| x := 9 |} ]) in
  let failing := calculate floor_globals ([ {| x := 1.5 |} ] ++ {| x := infinity |} :: [ {| x := 2 |} ]) in
  (written skipping = [ "Value is not a valid input for sqrt(x) -1.0" +:+ newline ] /\
   raised skipping = None) /\
  (body (stream_response failing) = [ "{" +:+ quoted "x" +:+ ":1.5," +:+ quoted "floor" +:+ ":1}" +:+ newline ] /\
   server_error (stream_response failing) =
     Some (mk_exn OverflowError "cannot convert float infinity to integer")).
Proof.
  cbv zeta. split.
  - assert (Hpre : Forall (fun value' => other_error sqrt_globals value' = false) [ {| x := 4 |} ]).
    { repeat constructor. }
    assert (Hraise : result_dict sqrt_globals {| x := -1 |} =
                     Raise (mk_exn ValueError "math domain error")).
    { vm_compute. reflexivity. }
    destruct (calculate_iter_error_handling sqrt_globals _ _ [ {| x := 9 |} ] _ Hpre Hraise)
      as [Hskip _].
    destruct (Hskip eq_refl) as (Hevents & Hraised & _ & _).
    split.
    + unfold written. rewrite Hevents. vm_compute. reflexivity.
    + rewrite Hraised. vm_compute. reflexivity.
  - assert (Hpre : Forall (fun value' => other_error floor_globals value' = false)
                     [ {| x := 1.5 |} ]).
    { repeat constructor. }
    assert (Hraise : result_dict floor_globals {| x := infinity |} =
                     Raise (mk_exn OverflowError "cannot convert float infinity to integer")).
    { vm_compute. reflexivity. }
    destruct (calculate_iter_error_handling floor_globals _ _ [ {| x := 2 |} ] _ Hpre Hraise)
      as [_ Hfail].
    destruct (Hfail eq_refl) as (_ & _ & Herror & Hbody).
    split.
    + rewrite Hbody. vm_compute. reflexivity.
    + exact Herror.
Defined.

(** C9: the errors the calculator skips are those of the [ValueError]
    class, the instances of [ValueError] as an [except] clause takes
    them, and no others.  Wherever in the batch the record stands, after
    records that raised nothing but domain errors: if its computation
    raises an instance of [ValueError] the record is skipped with a
    diagnostic and the rest of the batch is computed, and only then; if it
    raises an error of a different class, an [OverflowError] for one, the
    generator raises that error after the events of the earlier records,
    the rest of the batch is not computed, and only then. *)
Theorem calculate_iter_skips_exactly_ValueError
    (g : globals) (pre : list Value) (value : Value) (rest : list Value) (e : exn) :
  Forall (fun value' => other_error g value' = false) pre ->
  result_dict g value = Raise e ->
  let t := calculate_iter g (pre ++ value :: rest) in
  let before := calculate_iter g pre in
  let after := calculate_iter g rest in
  let skipped :=
    mk_trace (events before ++ Stdout (diagnostic g value) :: events after) (raised after) in
  let aborted := mk_trace (events before) (Some e) in
  (t = skipped <-> isinstance e ValueError = true) /\
  (t = aborted <-> isinstance e ValueError = false) /\
  (exn_class e = ValueError -> t = skipped) /\
  (exn_class e = OverflowError -> t = aborted /\ yielded t = yielded before) /\
  (isinstance e ValueError = true <->
   exn_class e = ValueError \/ exn_class e = UnicodeError \/
   exn_class e = UnicodeDecodeError \/ exn_class e = UnicodeEncodeError).
Proof.
  intros Hpre Hraise t before after skipped aborted.
  assert (Hdiff : skipped <> aborted).
  { unfold skipped, aborted. intros [= Hevents _].
    apply (f_equal (@List.length _)) in Hevents.
    rewrite length_app in Hevents. cbn [List.length] in Hevents. lia. }
  assert (Hskip : isinstance e ValueError = true -> t = skipped).
  { intros He. unfold t, skipped, before, after.
    rewrite (calculate_iter_app g pre (value :: rest) Hpre),
      (calculate_iter_cons_skip g value rest e Hraise He). reflexivity. }
  assert (Habort : isinstance e ValueError = false -> t = aborted).
  { intros He. unfold t, aborted, before.
    rewrite (calculate_iter_app g pre (value :: rest) Hpre),
      (calculate_iter_cons_raise g value rest e Hraise He).
    cbn [events raised propagate]. rewrite app_nil_r. reflexivity. }
  split; [|split; [|split; [|split]]].
  - split; [|exact Hskip]. intros Ht.
    destruct (isinstance e ValueError) eqn:He; [reflexivity|].
    exfalso. apply Hdiff. rewrite <- Ht. apply Habort. reflexivity.
  - split; [|exact Habort]. intros Ht.
    destruct (isinstance e ValueError) eqn:He; [|reflexivity].
    exfalso. apply Hdiff. rewrite <- Ht. symmetry. apply Hskip. reflexivity.
  - intros Hc. apply Hskip. unfold isinstance. rewrite Hc. reflexivity.
  - intros Hc. assert (Ht : t = aborted).
    { apply Habort. unfold isinstance. rewrite Hc. reflexivity. }
    split; [exact Ht | rewrite Ht; reflexivity].
  - apply issubclass_ValueError.
Qed.

Lemma calculate_iter_skips_exactly_ValueError_witness :
  let e := mk_exn OverflowError "cannot convert float infinity to integer" in
  Forall (fun value' => other_error floor_globals value' = false) [ {| x := 1.5 |} ] /\
  result_dict floor_globals {| x := infinity |} = Raise e /\
  calculate_iter floor_globals ([ {| x := 1.5 |} ] ++ {| x := infinity |} :: [ {| x := 2 |} ]) =
    mk_trace [Yield [("x", VFloat 1.5); ("floor", VInt 1)]] (Some e).
Proof.
  cbv zeta.
  assert (Hpre : Forall (fun value' => other_error floor_globals value' = false)
                   [ {| x := 1.5 |} ]).
  { repeat constructor. }
  assert (Hraise : result_dict floor_globals {| x := infinity |} =
                   Raise (mk_exn OverflowError "cannot convert float infinity to integer")).
  { vm_compute. reflexivity. }
  split; [exact Hpre|]. split; [exact Hraise|].
  destruct (calculate_iter_skips_exactly_ValueError floor_globals _ _ [ {| x := 2 |} ] _
              Hpre Hraise) as (_ & _ & _ & Hoverflow & _).
  destruct (Hoverflow eq_refl) as [Ht _]. rewrite Ht. vm_compute. reflexivity.
Defined.

(** The run the function computes is the only run of the generator to
    its end. *)
Lemma runs_calculate_iter (g : globals) (values : list Value) (t : trace dict) :
  runs g values t -> t = calculate_iter g values.
Proof.
  destruct t as [evs r]. intros H.
  pose proof (calculate_iter_runs g values) as H'. unfold runs in *; cbn [events raised] in H.
  destruct (steps_deterministic g _ _ _ H _ _ H') as [-> ->].
  destruct (calculate_iter g values); reflexivity.
Qed.

(** C8: for the empty input list the response has status 200 and an empty
    body, nothing is printed and no error ends the exchange. *)
Theorem empty_input_empty_body (g : globals) :
  post_calculate (Serving g) [] =
  Some {| status := 200; content_type := None; body := []; log := []; server_error := None |} /\
  calculate_iter g [] = exhausted.
Proof. split; reflexivity. Qed.

(** ** The claims about startup *)

Lemma module_body_cases (math : module) (environ : gmap string string) :
  module_body math environ =
  match environ !! "EXPR" with
  | None => raise TypeError "attribute name must be string, not 'NoneType'"
  | Some name =>
      match math !! name with
      | None =>
          raise AttributeError ("module '" +:+ "math" +:+ "' has no attribute '" +:+ name +:+ "'")
      | Some (Data v) => raise TypeError (repr v +:+ " is not a callable object")
      | Some (Builtin b) =>
          match text_signature b with
          | None =>
              raise ValueError
                ("no signature found for builtin <built-in function " +:+ builtin_name b +:+ ">")
          | Some [_] => Ok {| expression := name; fn := Builtin b |}
          | Some _ =>
              raise AssertionError
                ("Function " +:+ name +:+ " doesn't expect exactly one argument")
          end
      end
  end.
Proof.
  unfold module_body, getattr.
  destruct (environ !! "EXPR") as [name|]; [|reflexivity].
  destruct (math !! name) as [[v|b]|]; try reflexivity.
  unfold signature_parameters, mbind, result_bind, bind.
  destruct (text_signature b) as [[|p [|p' ps]]|]; reflexivity.
Qed.

Lemma start_serving (math : module) (environ : gmap string string) (g : globals) :
  start math environ = Serving g ->
  environ !! "EXPR" = Some (expression g) /\ math !! expression g = Some (fn g).
Proof.
  unfold start. rewrite module_body_cases.
  destruct (environ !! "EXPR") as [name|]; [|discriminate].
  destruct (math !! name) as [[v|b]|] eqn:Hattr; try discriminate.
  destruct (text_signature b) as [[|p [|p' ps]]|]; try discriminate.
  intros [= <-]. split; [reflexivity | exact Hattr].
Qed.

(** The process starts, and serves, exactly when [EXPR] is set to the
    name of a function of the math module whose signature has exactly one
    parameter, and then the handlers use that name and that function; in
    every other case the module body raises, the process is not serving
    and no request gets a response. *)
Lemma startup_succeeds_iff_single_parameter (math : module) (environ : gmap string string) :
  ((exists g, start math environ = Serving g) <->
   (exists name, environ !! "EXPR" = Some name /\ single_parameter_function math name)) /\
  (forall g, start math environ = Serving g ->
     environ !! "EXPR" = Some (expression g) /\ math !! expression g = Some (fn g)) /\
  (~ (exists name, environ !! "EXPR" = Some name /\ single_parameter_function math name) ->
   exists e, start math environ = Crashed e /\
             forall values, post_calculate (start math environ) values = None) /\
  (environ !! "EXPR" = None ->
   exists msg, start math environ = Crashed (mk_exn TypeError msg)) /\
  (forall name, environ !! "EXPR" = Some name -> math !! name = None ->
   exists msg, start math environ = Crashed (mk_exn AttributeError msg)) /\
  (forall name b ps, environ !! "EXPR" = Some name -> math !! name = Some (Builtin b) ->
   text_signature b = Some ps -> List.length ps <> 1%nat ->
   exists msg, start math environ = Crashed (mk_exn AssertionError msg)).
Proof.
  unfold start, single_parameter_function. rewrite module_body_cases.
  destruct (environ !! "EXPR") as [name|] eqn:Henv.
  2: { unfold raise. repeat split; naive_solver. }
  destruct (math !! name) as [[v|b]|] eqn:Hattr.
  - unfold raise. repeat split; naive_solver.
  - destruct (text_signature b) as [[|p [|p' ps]]|] eqn:Hsig; unfold raise.
    + repeat split; naive_solver.
    + repeat split; naive_solver.
    + repeat split; naive_solver.
    + repeat split; naive_solver.
  - unfold raise. repeat split; naive_solver.
Qed.

Example startup_sqrt : start math.module {[ "EXPR" := "sqrt" ]} = Serving sqrt_globals.
Proof. reflexivity. Qed.

Example startup_copysign :
  start math.module {[ "EXPR" := "copysign" ]} =
  Crashed (mk_exn AssertionError "Function copysign doesn't expect exactly one argument").
Proof. reflexivity. Qed.

Example startup_pi :
  start math.module {[ "EXPR" := "pi" ]} =
  Crashed (mk_exn TypeError "3.141592653589793 is not a callable object").
Proof. vm_compute. reflexivity. Qed.

Example startup_unknown :
  start math.module {[ "EXPR" := "sqroot" ]} =
  Crashed (mk_exn AttributeError "module 'math' has no attribute 'sqroot'").
Proof. reflexivity. Qed.

(** [gcd] takes any number of arguments, and its signature has the one
    parameter [*integers]: the arity check lets it through, and every
    call on a float then fails with a [TypeError]. *)
Example startup_gcd :
  start math.module {[ "EXPR" := "gcd" ]} = Serving {| expression := "gcd"; fn := math.gcd |} /\
  result_dict {| expression := "gcd"; fn := math.gcd |} {| x := 4 |} =
    Raise (mk_exn TypeError "'float' object cannot be interpreted as an integer").
Proof. split; [reflexivity | vm_compute; reflexivity]. Qed.

Example startup_unset :
  start math.module ∅ =
  Crashed (mk_exn TypeError "attribute name must be string, not 'NoneType'").
Proof. reflexivity. Qed.

Lemma arity_is_one_unary (name param : string) (f : value -> result value) :
  arity_is_one (math.unary name param f).
Proof.
  split; [eexists; reflexivity|].
  intros [|a [|b args]] Hlen; [eexists; reflexivity | contradiction | eexists; reflexivity].
Qed.

(** C3, at the input where the code departs from it: with [EXPR=gcd] the
    import succeeds and the process serves, although [gcd] is not a
    function of arity one: the one parameter of its signature is
    [*integers], and it returns when called with no argument or with two.
    The check of lines 23 to 25 counts parameters, so it lets a variadic
    function through, where a function of arity one such as [sqrt] is what
    the comment above it asks for.  The misconfiguration shows only when
    requests arrive: the function fails on every record, and every
    request with a record ends in that error with an empty body. *)
Theorem startup_accepts_variadic_function :
  let type_error := mk_exn TypeError "'float' object cannot be interpreted as an integer" in
  start math.module {[ "EXPR" := "gcd" ]} = Serving gcd_globals /\
  signature_parameters math.gcd =
    Ok [ {| param_name := "integers"; param_kind := VAR_POSITIONAL |} ] /\
  call math.gcd [] = Ok (VInt 0) /\
  call math.gcd [VInt 4; VInt 6] = Ok (VInt 2) /\
  ~ arity_is_one math.gcd /\
  arity_is_one math.sqrt /\
  (forall value, result_dict gcd_globals value = Raise type_error) /\
  (forall value rest,
     post_calculate (start math.module {[ "EXPR" := "gcd" ]}) (value :: rest) =
     Some {| status := 200; content_type := None; body := []; log := [];
             server_error := Some type_error |}).
Proof.
  cbv zeta.
  assert (Hfails : forall value,
            result_dict gcd_globals value =
            Raise (mk_exn TypeError "'float' object cannot be interpreted as an integer")).
  { intros [x]. reflexivity. }
  split; [reflexivity|]. split; [reflexivity|]. split; [reflexivity|].
  split; [reflexivity|]. split; [|split; [apply arity_is_one_unary|split; [exact Hfails|]]].
  - intros [_ Hrefuses]. destruct (Hrefuses [] ltac:(cbn; lia)) as [msg Hmsg].
    vm_compute in Hmsg. discriminate Hmsg.
  - intros value rest.
    change (start math.module {[ "EXPR" := "gcd" ]}) with (Serving gcd_globals).
    cbn [post_calculate]. rewrite stream_response_calculate.
    rewrite (calculate_iter_cons_raise gcd_globals value rest _ (Hfails value) eq_refl).
    reflexivity.
Qed.

(** ** The claims about the output records *)

Lemma dict_set_fresh (k k' : string) (v v' : value) :
  k <> k' -> dict_set [(k, v)] k' v' = [(k, v); (k', v')].
Proof.
  intros Hne. cbn [dict_set]. rewrite (proj2 (String.eqb_neq _ _) Hne). reflexivity.
Qed.

Lemma yielded_are_computed (g : globals) (values : list Value) (d : dict) :
  d ∈ yielded (calculate_iter g values) ->
  exists value, value ∈ values /\ computed g value = Some d.
Proof.
  intros Hd. apply list_elem_of_omap.
  exact (elem_of_sublist _ _ _ Hd (yielded_sublist g values)).
Qed.

(** A record yielded by a started process: the field [x] of an input
    record, then the result under the configured name. *)
Lemma yielded_record
    (math : module) (environ : gmap string string) (g : globals)
    (values : list Value) (d : dict) :
  math !! "x" = None ->
  start math environ = Serving g ->
  d ∈ yielded (calculate_iter g values) ->
  "x" <> expression g /\
  exists value r,
    value ∈ values /\
    call (fn g) [VFloat (x value)] = Ok r /\
    d = [("x", VFloat (x value)); (expression g, r)].
Proof.
  intros Hx Hstart Hd.
  destruct (start_serving math environ g Hstart) as [_ Hfn].
  assert (Hne : "x" <> expression g) by (intros Heq; rewrite <- Heq in Hfn; congruence).
  split; [exact Hne|].
  destruct (yielded_are_computed g values d Hd) as (value & Hin & Hc).
  apply computed_spec in Hc as (r & Hcall & ->).
  exists value, r. unfold Value_dict. rewrite (dict_set_fresh _ _ _ _ Hne).
  repeat split; assumption.
Qed.

(** C4: when the process has started on a math module (which has no
    attribute called [x]), every record the calculator yields comes from an
    input record on which the function returned: it is that record's one
    field [x], with the very same value, followed by exactly one more
    field, keyed by the configured name and holding the computed value. *)
Theorem output_record_shape
    (math : module) (environ : gmap string string) (g : globals)
    (values : list Value) (d : dict) :
  math !! "x" = None ->
  start math environ = Serving g ->
  d ∈ yielded (calculate_iter g values) ->
  exists value r,
    value ∈ values /\
    call (fn g) [VFloat (x value)] = Ok r /\
    d = Value_dict value ++ [(expression g, r)] /\
    dict_get d "x" = Some (VFloat (x value)) /\
    dict_get d (expression g) = Some r /\
    List.length d = S (List.length (Value_dict value)).
Proof.
  intros Hx Hstart Hd.
  destruct (yielded_record math environ g values d Hx Hstart Hd)
    as (Hne & value & r & Hin & Hcall & ->).
  exists value, r.
  split; [assumption|]. split; [assumption|]. split; [reflexivity|].
  split; [reflexivity|]. split; [|reflexivity].
  cbn [dict_get]. rewrite (proj2 (String.eqb_neq _ _) Hne), String.eqb_refl. reflexivity.
Qed.

Lemma output_record_shape_witness :
  let d := [("x", VFloat 4); ("sqrt", VFloat 2)] in
  math.module !! "x" = None /\
  start math.module {[ "EXPR" := "sqrt" ]} = Serving sqrt_globals /\
  d ∈ yielded (calculate_iter sqrt_globals [ {| x := 4 |} ]) /\
  exists value r,
    value ∈ [ {| x := 4 |} ] /\
    call math.sqrt [VFloat (x value)] = Ok r /\
    d = Value_dict value ++ [("sqrt", r)] /\
    dict_get d "x" = Some (VFloat (x value)) /\
    dict_get d "sqrt" = Some r /\
    List.length d = 2%nat.
Proof.
  assert (Hx : math.module !! "x" = None) by reflexivity.
  assert (Hstart : start math.module {[ "EXPR" := "sqrt" ]} = Serving sqrt_globals)
    by reflexivity.
  assert (Hd : [("x", VFloat 4); ("sqrt", VFloat 2)]
               ∈ yielded (calculate_iter sqrt_globals [ {| x := 4 |} ])).
  { vm_compute. apply list_elem_of_here. }
  repeat (split; [assumption|]).
  exact (output_record_shape math.module _ sqrt_globals [ {| x := 4 |} ] _ Hx Hstart Hd).
Defined.

(** C6: with [EXPR=sqrt], the batch 4, -1, 9 (the numbers of the request
    body, which validation turns into the floats 4.0, -1.0 and 9.0) gets
    status 200 and exactly two lines, for 4.0 and for 9.0 in this order;
    the record -1.0 is dropped, with one diagnostic in the log. *)
Theorem sqrt_scenario :
  post_calculate (start math.module {[ "EXPR" := "sqrt" ]})
    [ {| x := 4 |}; {| x := -1 |}; {| x := 9 |} ] =
  Some {| status := 200;
          content_type := None;
          body := [ "{" +:+ quoted "x" +:+ ":4.0," +:+ quoted "sqrt" +:+ ":2.0}" +:+ newline;
                    "{" +:+ quoted "x" +:+ ":9.0," +:+ quoted "sqrt" +:+ ":3.0}" +:+ newline ];
          log := [ "Value is not a valid input for sqrt(x) -1.0" +:+ newline ];
          server_error := None |}.
Proof. vm_compute. reflexivity. Qed.


(** ** The claims about the response *)

Section Printable.

Lemma printable_app (a b : string) : printable (a +:+ b) = printable a && printable b.
Proof.
  induction a as [|c a IH]; [reflexivity|].
  rewrite string_app_cons. cbn [printable]. rewrite IH, andb_assoc. reflexivity.
Qed.

Lemma printable_concat (sep : string) (ss : list string) :
  printable sep = true -> Forall (fun s => printable s = true) ss ->
  printable (String.concat sep ss) = true.
Proof.
  intros Hsep. induction 1 as [|s ss Hs Hss IH]; [reflexivity|].
  cbn [String.concat]. destruct ss as [|s' ss']; [exact Hs|].
  rewrite !printable_app, Hs, Hsep, IH. reflexivity.
Qed.

Lemma printable_substring (s : string) (n m : nat) :
  printable s = true -> printable (String.substring n m s) = true.
Proof.
  revert n m. induction s as [|c s IH]; intros n m Hs.
  - destruct n, m; reflexivity.
  - cbn [printable] in Hs. apply andb_prop in Hs as [Hc Hs].
    destruct n as [|n]; cbn [String.substring].
    + destruct m as [|m]; [reflexivity|]. cbn [printable]. rewrite Hc, IH by exact Hs.
      reflexivity.
    + apply IH, Hs.
Qed.

Lemma printable_string_of_uint (d : Decimal.uint) :
  printable (NilZero.string_of_uint d) = true.
Proof.
  assert (H : forall u, printable (NilEmpty.string_of_uint u) = true).
  { induction u; cbn [NilEmpty.string_of_uint printable]; [reflexivity | exact IHu ..]. }
  destruct d; try apply H. reflexivity.
Qed.

Lemma printable_digits_of_Z (z : Z) : printable (digits_of_Z z) = true.
Proof. apply printable_string_of_uint. Qed.

Lemma printable_int_repr (z : Z) : printable (int_repr z) = true.
Proof.
  unfold int_repr. destruct (z <? 0).
  - rewrite printable_app, printable_digits_of_Z. reflexivity.
  - apply printable_digits_of_Z.
Qed.

Lemma printable_zeros (n : Z) : printable (zeros n) = true.
Proof. unfold zeros. induction (Z.to_nat n) as [|k IH]; [reflexivity | exact IH]. Qed.

Lemma printable_exponent_text (z : Z) : printable (exponent_text z) = true.
Proof.
  unfold exponent_text. rewrite !printable_app, printable_digits_of_Z.
  destruct (z <? 0), (Z.abs z <? 10); reflexivity.
Qed.

Lemma printable_format_float_short (ds : string) (decpt : Z) :
  printable ds = true -> printable (format_float_short ds decpt) = true.
Proof.
  intros Hds. unfold format_float_short.
  case_conditionals;
    rewrite ?printable_app, ?printable_substring, ?printable_zeros,
      ?printable_exponent_text, ?Hds by exact Hds; reflexivity.
Qed.

Lemma printable_dtoa (m : positive) (e : Z) : printable (fst (dtoa m e)) = true.
Proof.
  unfold dtoa. destruct (shortest _ _ _ _ _) as [d n].
  destruct (strip_zeros _ _ _) as [d' n']. apply printable_digits_of_Z.
Qed.

Lemma printable_float_repr (f : float) : printable (float_repr f) = true.
Proof.
  unfold float_repr. destruct (Prim2SF f) as [[]|[]| |s m e]; try reflexivity.
  pose proof (printable_dtoa m e) as Hds. destruct (dtoa m e) as [ds decpt].
  rewrite printable_app, printable_format_float_short by exact Hds.
  destruct s; reflexivity.
Qed.

Lemma printable_floatstr (f : float) : printable (floatstr f) = true.
Proof.
  unfold floatstr. case_conditionals; try reflexivity.
  apply printable_float_repr.
Qed.

Lemma printable_escape_ascii (c : ascii) : printable (escape_ascii c) = true.
Proof. destruct c as [[] [] [] [] [] [] [] []]; vm_compute; reflexivity. Qed.

Lemma printable_concat_map (f : ascii -> string) (s : string) :
  (forall c, printable (f c) = true) -> printable (concat_map f s) = true.
Proof.
  intros Hf. induction s as [|c s IH]; [reflexivity|].
  cbn [concat_map]. rewrite printable_app, Hf, IH. reflexivity.
Qed.

Lemma printable_encode_basestring_ascii (s : string) :
  printable (encode_basestring_ascii s) = true.
Proof.
  unfold encode_basestring_ascii. rewrite string_app_cons. cbn [printable].
  rewrite printable_app, printable_concat_map by apply printable_escape_ascii.
  reflexivity.
Qed.

(** Induction on values, with the items of a tuple. *)
Lemma value_ind_nested (P : value -> Prop) :
  (forall f, P (VFloat f)) -> (forall z, P (VInt z)) -> (forall b, P (VBool b)) ->
  (forall items, Forall P items -> P (VTuple items)) ->
  forall o, P o.
Proof.
  intros Hfloat Hint Hbool Htuple. fix IH 1. intros [f|z|b|items].
  - apply Hfloat.
  - apply Hint.
  - apply Hbool.
  - apply Htuple. induction items as [|item items IHitems]; constructor.
    + apply IH.
    + exact IHitems.
Qed.

Lemma printable_json_encode (o : value) : printable (json_encode o) = true.
Proof.
  induction o as [f|z|b|items IH] using value_ind_nested; cbn [json_encode].
  - apply printable_floatstr.
  - apply printable_int_repr.
  - destruct b; reflexivity.
  - rewrite !printable_app, printable_concat; [reflexivity..|].
    apply Forall_map. exact IH.
Qed.

Lemma printable_json_dumps (d : dict) : printable (json_dumps d) = true.
Proof.
  unfold json_dumps. rewrite !printable_app, printable_concat; [reflexivity..|].
  apply Forall_map, Forall_forall. intros [k v] _. unfold json_item. cbn [fst snd].
  rewrite !printable_app, printable_encode_basestring_ascii, printable_json_encode.
  reflexivity.
Qed.

(** ASCII text is its own UTF-8 encoding. *)
Lemma encode_utf8_ascii (s : string) :
  printable s = true -> encode_utf8 (s +:+ newline) = s +:+ newline.
Proof.
  unfold encode_utf8. induction s as [|c s IH]; intros Hs; [reflexivity|].
  cbn [printable] in Hs. apply andb_prop in Hs as [Hc Hs].
  rewrite string_app_cons. cbn [concat_map]. rewrite IH by exact Hs.
  unfold encode_utf8_char. unfold printable_char in Hc.
  apply andb_prop in Hc as [_ Hc]. apply N.leb_le in Hc.
  destruct (N.ltb_spec (N_of_ascii c) 128) as [_|Hge]; [reflexivity | lia].
Qed.

End Printable.

Lemma printable_no_newline (s : string) :
  printable s = true -> forall n, String.get n s <> Some "010"%char.
Proof.
  induction s as [|c s IH]; intros Hs n; [destruct n; discriminate|].
  cbn [printable] in Hs. apply andb_prop in Hs as [Hc Hs].
  destruct n as [|n]; cbn [String.get]; [|exact (IH Hs n)].
  intros [= ->]. discriminate Hc.
Qed.

Lemma ndjson_line_text (d : dict) : ndjson_line d = json_dumps d +:+ newline.
Proof. unfold ndjson_line. apply encode_utf8_ascii, printable_json_dumps. Qed.

(** The line of a record yielded by a started process. *)
Lemma ndjson_line_of_record
    (math : module) (environ : gmap string string) (g : globals)
    (values : list Value) (d : dict) :
  math !! "x" = None ->
  start math environ = Serving g ->
  d ∈ yielded (calculate_iter g values) ->
  exists value r,
    value ∈ values /\
    call (fn g) [VFloat (x value)] = Ok r /\
    ndjson_line d =
      "{" +:+ quoted "x" +:+ ":" +:+ floatstr (x value) +:+ "," +:+
      encode_basestring_ascii (expression g) +:+ ":" +:+ json_encode r +:+ "}" +:+ newline.
Proof.
  intros Hx Hstart Hd.
  destruct (yielded_record math environ g values d Hx Hstart Hd)
    as (_ & value & r & Hin & Hcall & ->).
  exists value, r. split; [assumption|]. split; [assumption|].
  rewrite ndjson_line_text. unfold json_dumps, json_item.
  cbn [List.map String.concat fst snd json_encode].
  rewrite !string_app_assoc. reflexivity.
Qed.

(** A batch may hold a NaN (the request body may spell one), and the
    line then holds the token [NaN]. *)
Example nan_line :
  body (stream_response (calculate sqrt_globals [ {| x := nan |} ])) =
  [ "{" +:+ quoted "x" +:+ ":NaN," +:+ quoted "sqrt" +:+ ":NaN}" +:+ newline ].
Proof. vm_compute. reflexivity. Qed.

(** C7, as amended: every record the calculator yields becomes one chunk
    of the body, the compact JSON text of the record followed by a
    newline: an opening brace, the items separated by commas with a colon
    between key and value and no spacing, a closing brace; the text is
    printable ASCII, so the only line break of a chunk is the one that
    ends it.  The endpoint passes no media type to the streaming response,
    which therefore has no content type. *)
Theorem response_body_is_json_lines (g : globals) (values : list Value) :
  body (stream_response (calculate g values)) =
    List.map (fun d => json_dumps d +:+ newline) (yielded (calculate_iter g values)) /\
  Forall (fun d =>
            json_dumps d = "{" +:+ String.concat "," (List.map json_item d) +:+ "}" /\
            printable (json_dumps d) = true /\
            forall n, String.get n (json_dumps d) <> Some "010"%char)
         (yielded (calculate_iter g values)) /\
  media_type (calculate g values) = None /\
  content_type (stream_response (calculate g values)) = None.
Proof.
  rewrite stream_response_calculate. cbn [body content_type].
  split; [|split; [|split; reflexivity]].
  - apply map_ext. intros d. apply ndjson_line_text.
  - apply Forall_forall. intros d _. split; [reflexivity|].
    split; [apply printable_json_dumps | apply printable_no_newline, printable_json_dumps].
Qed.

(** C7, as stated, fails: the response to a request has no content type
    at all, newline-delimited JSON or other, because the endpoint creates
    it without a media type. *)
Lemma response_has_no_content_type :
  let response := calculate sqrt_globals [ {| x := 4 |} ] in
  start math.module {[ "EXPR" := "sqrt" ]} = Serving sqrt_globals /\
  media_type response = None /\
  content_type (stream_response response) = None /\
  content_type (stream_response response) <> Some "application/x-ndjson".
Proof. cbv zeta. repeat split. discriminate. Qed.

(** * Further properties of the calculator and the endpoint *)

Section Runs.
Variable g : globals.

Lemma record_event_ok value d :
  result_dict g value = Ok d -> record_event g value = Yield d.
Proof. intros H. unfold record_event, computed. rewrite H. reflexivity. Qed.

Lemma record_event_raise value e :
  result_dict g value = Raise e -> record_event g value = Stdout (diagnostic g value).
Proof. intros H. unfold record_event, computed. rewrite H. reflexivity. Qed.

Lemma other_error_raise value e :
  result_dict g value = Raise e -> other_error g value = negb (isinstance e ValueError).
Proof. intros H. unfold other_error. rewrite H. reflexivity. Qed.

Lemma other_error_ok value d : result_dict g value = Ok d -> other_error g value = false.
Proof. intros H. unfold other_error. rewrite H. reflexivity. Qed.

(** A batch without other errors has one event for each record. *)
Lemma calculate_iter_events values :
  Forall (fun value => other_error g value = false) values ->
  calculate_iter g values = mk_trace (List.map (record_event g) values) None.
Proof.
  induction 1 as [|value rest Hv _ IH]; [reflexivity|].
  cbn [calculate_iter List.map]. destruct (result_dict g value) as [d|e] eqn:Hd.
  - rewrite IH, (record_event_ok _ _ Hd). reflexivity.
  - rewrite (other_error_raise _ _ Hd) in Hv. apply negb_false_iff in Hv.
    rewrite Hv, IH, (record_event_raise _ _ Hd). reflexivity.
Qed.

Lemma raised_None values :
  raised (calculate_iter g values) = None <->
  Forall (fun value => other_error g value = false) values.
Proof.
  split; [|apply calculate_iter_finishes].
  induction values as [|value rest IH]; [constructor|].
  cbn [calculate_iter]. destruct (result_dict g value) as [d|e] eqn:Hd.
  - intros H. constructor; [exact (other_error_ok _ _ Hd) | exact (IH H)].
  - destruct (isinstance e ValueError) eqn:He; [|discriminate].
    intros H. constructor; [|exact (IH H)].
    rewrite (other_error_raise _ _ Hd), He. reflexivity.
Qed.

(** Running a batch in two parts. *)
Lemma calculate_iter_concat pre post :
  calculate_iter g (pre ++ post) =
  match raised (calculate_iter g pre) with
  | None => mk_trace (events (calculate_iter g pre) ++ events (calculate_iter g post))
                     (raised (calculate_iter g post))
  | Some _ => calculate_iter g pre
  end.
Proof.
  destruct (raised (calculate_iter g pre)) as [e|] eqn:Hr.
  - revert Hr. induction pre as [|value pre IH]; [discriminate|].
    cbn [calculate_iter app]. destruct (result_dict g value) as [d|e'].
    + cbn [raised emit]. intros H. rewrite (IH H). reflexivity.
    + destruct (isinstance e' ValueError); [|reflexivity].
      cbn [raised emit]. intros H. rewrite (IH H). reflexivity.
  - apply calculate_iter_app, raised_None, Hr.
Qed.

Lemma events_count {A} (t : trace A) :
  (List.length (yielded t) + List.length (written t))%nat = List.length (events t).
Proof.
  unfold yielded, written. induction (events t) as [|[a|s] evs IH]; cbn; lia.
Qed.

End Runs.

(** X1: what a run on any batch is.  Either no record raises an error
    other than a domain error, and the run has one event for each record,
    in input order (the record it yields, or its diagnostic), and ends
    normally; or the batch has a first record that raises another error,
    and the run has the events of the records before it, nothing for it or
    for the records after it, and ends by raising that error. *)
Theorem calculate_iter_cases (g : globals) (values : list Value) :
  (Forall (fun value => other_error g value = false) values /\
   calculate_iter g values = mk_trace (List.map (record_event g) values) None) \/
  (exists pre value rest e,
     values = pre ++ value :: rest /\
     Forall (fun value' => other_error g value' = false) pre /\
     result_dict g value = Raise e /\
     isinstance e ValueError = false /\
     calculate_iter g values = mk_trace (List.map (record_event g) pre) (Some e) /\
     yielded (calculate_iter g values) = omap (computed g) pre).
Proof.
  induction values as [|value rest IH].
  - left. split; [constructor | reflexivity].
  - destruct (result_dict g value) as [d|e] eqn:Hd.
    + destruct IH as [[Hall Hrun] | (pre & bad & post & e & -> & Hpre & Hbad & He & Hrun & Hy)].
      * left. assert (Hall' : Forall (fun v => other_error g v = false) (value :: rest)).
        { constructor; [exact (other_error_ok g _ _ Hd) | exact Hall]. }
        split; [exact Hall' | by apply calculate_iter_events].
      * right. exists (value :: pre), bad, post, e.
        assert (Hpre' : Forall (fun v => other_error g v = false) (value :: pre)).
        { constructor; [exact (other_error_ok g _ _ Hd) | exact Hpre]. }
        split; [reflexivity|]. split; [exact Hpre'|]. split; [exact Hbad|].
        split; [exact He|].
        rewrite (calculate_iter_cons_ok g value _ d Hd), Hrun.
        split; [cbn [List.map]; rewrite (record_event_ok g _ _ Hd); reflexivity|].
        rewrite <- Hrun, yielded_emit_yield, Hy. cbn. unfold computed at 2.
        rewrite Hd. reflexivity.
    + destruct (isinstance e ValueError) eqn:He.
      * assert (Hv : other_error g value = false).
        { rewrite (other_error_raise g _ _ Hd), He. reflexivity. }
        destruct IH as [[Hall Hrun] | (pre & bad & post & e' & -> & Hpre & Hbad & He' & Hrun & Hy)].
        -- left. assert (Hall' : Forall (fun v => other_error g v = false) (value :: rest)).
           { constructor; assumption. }
           split; [exact Hall' | by apply calculate_iter_events].
        -- right. exists (value :: pre), bad, post, e'.
           assert (Hpre' : Forall (fun v => other_error g v = false) (value :: pre)).
           { constructor; assumption. }
           split; [reflexivity|]. split; [exact Hpre'|]. split; [exact Hbad|].
           split; [exact He'|].
           rewrite (calculate_iter_cons_skip g value _ e Hd He), Hrun.
           split; [cbn [List.map]; rewrite (record_event_raise g _ _ Hd); reflexivity|].
           rewrite <- Hrun, yielded_emit_stdout, Hy. cbn. unfold computed at 2.
           rewrite Hd. reflexivity.
      * right. exists [], value, rest, e.
        rewrite (calculate_iter_cons_raise g value rest e Hd He).
        repeat split; first [constructor | assumption].
Qed.

(** X2: every record is accounted for exactly when the run ends
    normally.  The lines yielded and the diagnostics printed are together
    never more than the records of the batch, and they are as many as the
    records if and only if the generator did not raise; then the log holds
    the diagnostics of exactly the records with a domain error, in input
    order. *)
Theorem calculate_iter_accounting (g : globals) (values : list Value) :
  let t := calculate_iter g values in
  (List.length (yielded t) + List.length (written t) <= List.length values)%nat /\
  ((List.length (yielded t) + List.length (written t))%nat = List.length values <->
   raised t = None) /\
  (raised t = None ->
   written t = List.map (diagnostic g) (List.filter (domain_error g) values)).
Proof.
  cbv zeta. rewrite events_count.
  assert (Hlog : forall vs, Forall (fun v => other_error g v = false) vs ->
            written (mk_trace (List.map (record_event g) vs) None) =
            List.map (diagnostic g) (List.filter (domain_error g) vs)).
  { induction 1 as [|v vs Hv _ IH]; [reflexivity|].
    unfold written in *. cbn [events List.map List.filter] in *.
    unfold record_event at 1, computed, domain_error at 1.
    unfold other_error in Hv.
    destruct (result_dict g v) as [d|e]; cbn; [exact IH|].
    apply negb_false_iff in Hv. rewrite Hv. cbn. f_equal. exact IH. }
  assert (Hlen : (List.length (events (calculate_iter g values)) <= List.length values)%nat /\
                 (List.length (events (calculate_iter g values)) = List.length values <->
                  raised (calculate_iter g values) = None)).
  { induction values as [|v vs [IHle IHeq]]; [repeat split; cbn; lia|].
    cbn [calculate_iter]. destruct (result_dict g v) as [d|e].
    - cbn. split; [lia|]. rewrite <- IHeq. lia.
    - destruct (isinstance e ValueError); cbn.
      + split; [lia|]. rewrite <- IHeq. lia.
      + split; [lia|]. split; [lia | discriminate]. }
  destruct Hlen as [Hle Heq]. split; [exact Hle|]. split; [exact Heq|].
  intros Hr. apply raised_None in Hr.
  rewrite (calculate_iter_events g values Hr). by apply Hlog.
Qed.

(** X3: what has been sent for the first records of a batch does not
    depend on the records that follow.  The events of the run on a batch
    begin with the events of the run on any of its prefixes, and so do the
    lines of the response body: a line can be flushed before the later
    records are computed. *)
Theorem calculate_iter_prefix (g : globals) (pre post : list Value) :
  events (calculate_iter g pre) `prefix_of` events (calculate_iter g (pre ++ post)) /\
  body (stream_response (calculate g pre))
    `prefix_of` body (stream_response (calculate g (pre ++ post))).
Proof.
  assert (H : events (calculate_iter g pre) `prefix_of` events (calculate_iter g (pre ++ post))).
  { rewrite calculate_iter_concat.
    destruct (raised (calculate_iter g pre)); [reflexivity|].
    cbn [events]. apply prefix_app_r. reflexivity. }
  split; [exact H|].
  rewrite !stream_response_calculate. cbn [body].
  destruct H as [more Hmore]. unfold yielded. rewrite Hmore, omap_app, map_app.
  apply prefix_app_r. reflexivity.
Qed.

(** X4: a generator that has been resumed some number of times and is
    still suspended has read a prefix of the batch and nothing else: the
    records still pending are the rest of the batch, none of the records
    read raised an error other than a domain error, and the events so far
    are those of the records read, one for each. *)
Theorem steps_read_a_prefix
    (g : globals) (values : list Value) (evs : list (event dict)) (rest : list Value) :
  steps g (Suspended values) evs (Suspended rest) ->
  exists read,
    values = read ++ rest /\
    Forall (fun value => other_error g value = false) read /\
    evs = List.map (record_event g) read.
Proof.
  intros H.
  remember (Suspended values) as s eqn:Hs. remember (Suspended rest) as s' eqn:Hs'.
  revert values Hs Hs'.
  induction H as [s|s evs s1 evs' s2 Hstep Hsteps IH]; intros values Hs Hs'.
  - subst s. injection Hs' as <-. exists []. repeat split. constructor.
  - subst s. inversion Hstep as [value pending d Hd|value pending e Hd He|value pending e Hd He|];
      subst.
    + destruct (IH pending eq_refl eq_refl) as (read & -> & Hread & ->).
      exists (value :: read). split; [reflexivity|]. split.
      * constructor; [exact (other_error_ok g _ _ Hd) | exact Hread].
      * cbn [List.map]. rewrite (record_event_ok g _ _ Hd). reflexivity.
    + destruct (IH pending eq_refl eq_refl) as (read & -> & Hread & ->).
      exists (value :: read). split; [reflexivity|]. split.
      * constructor; [|exact Hread].
        rewrite (other_error_raise g _ _ Hd), He. reflexivity.
      * cbn [List.map]. rewrite (record_event_raise g _ _ Hd). reflexivity.
    + apply steps_closed in Hsteps as [_ Hclosed]. discriminate Hclosed.
    + apply steps_closed in Hsteps as [_ Hclosed]. discriminate Hclosed.
Qed.

Lemma steps_read_a_prefix_witness :
  let values := [ {| x := 4 |}; {| x := -1 |}; {| x := 9 |} ] in
  let evs := [Yield [("x", VFloat 4); ("sqrt", VFloat 2)];
              Stdout (diagnostic sqrt_globals {| x := -1 |})] in
  steps sqrt_globals (Suspended values) evs (Suspended [ {| x := 9 |} ]) /\
  exists read,
    values = read ++ [ {| x := 9 |} ] /\
    Forall (fun value => other_error sqrt_globals value = false) read /\
    evs = List.map (record_event sqrt_globals) read.
Proof.
  cbv zeta.
  assert (H : steps sqrt_globals
                (Suspended [ {| x := 4 |}; {| x := -1 |}; {| x := 9 |} ])
                ([Yield [("x", VFloat 4); ("sqrt", VFloat 2)]] ++
                 [Stdout (diagnostic sqrt_globals {| x := -1 |})] ++ [])
                (Suspended [ {| x := 9 |} ])).
  { eapply steps_more; [apply step_yield; vm_compute; reflexivity|].
    eapply steps_more; [|apply steps_done].
    apply (step_skip sqrt_globals _ _ (mk_exn ValueError "math domain error"));
      vm_compute; reflexivity. }
  split; [exact H|].
  exact (steps_read_a_prefix sqrt_globals _ _ _ H).
Defined.

(** X5: the records that are skipped leave no trace in the response.
    Taking the records with a domain error out of a batch changes neither
    the lines of the body nor the way the exchange ends; it only empties
    the log. *)
Theorem skipped_records_do_not_matter (g : globals) (values : list Value) :
  let kept := List.filter (fun value => negb (domain_error g value)) values in
  body (stream_response (calculate g kept)) = body (stream_response (calculate g values)) /\
  server_error (stream_response (calculate g kept)) =
    server_error (stream_response (calculate g values)) /\
  log (stream_response (calculate g kept)) = [].
Proof.
  cbv zeta. rewrite !stream_response_calculate. cbn [body server_error log].
  assert (H : forall vs,
            yielded (calculate_iter g (List.filter (fun v => negb (domain_error g v)) vs)) =
              yielded (calculate_iter g vs) /\
            raised (calculate_iter g (List.filter (fun v => negb (domain_error g v)) vs)) =
              raised (calculate_iter g vs) /\
            written (calculate_iter g (List.filter (fun v => negb (domain_error g v)) vs)) = []).
  { induction vs as [|v vs (IHy & IHr & IHw)]; [repeat split|].
    cbn [List.filter].
    destruct (result_dict g v) as [d|e] eqn:Hd.
    - assert (Hk : domain_error g v = false) by (unfold domain_error; by rewrite Hd).
      rewrite Hk. cbn [negb].
      rewrite !(calculate_iter_cons_ok g v _ d Hd), !yielded_emit_yield.
      split; [by rewrite IHy|]. split; [exact IHr | exact IHw].
    - assert (Hk : domain_error g v = isinstance e ValueError)
        by (unfold domain_error; by rewrite Hd).
      rewrite Hk. destruct (isinstance e ValueError) eqn:He; cbn [negb].
      + rewrite (calculate_iter_cons_skip g v vs e Hd He), yielded_emit_stdout.
        split; [exact IHy|]. split; [exact IHr | exact IHw].
      + rewrite !(calculate_iter_cons_raise g v _ e Hd He). repeat split. }
  destruct (H values) as (Hy & Hr & Hw). rewrite Hy, Hr, Hw. repeat split.
Qed.

(** X6: the response to a batch given in two parts.  If the run on the
    first part ends normally, the body and the log are those of the first
    part followed by those of the second, and the exchange ends as the
    second part's does; if the first part ends in an error, the second
    part adds nothing and the exchange is that of the first part. *)
Theorem stream_response_concat (g : globals) (pre post : list Value) :
  let first := stream_response (calculate g pre) in
  let second := stream_response (calculate g post) in
  stream_response (calculate g (pre ++ post)) =
  match server_error first with
  | None =>
      {| status := 200;
         content_type := None;
         body := body first ++ body second;
         log := log first ++ log second;
         server_error := server_error second |}
  | Some _ => first
  end.
Proof.
  cbv zeta. rewrite !stream_response_calculate. cbn [server_error body log].
  rewrite calculate_iter_concat.
  destruct (raised (calculate_iter g pre)) as [e|] eqn:Hr; [rewrite Hr; reflexivity|].
  unfold yielded, written. cbn [events raised].
  rewrite !omap_app, map_app. reflexivity.
Qed.

(** ** The text of the body *)

Lemma escape_ascii_plain (c : ascii) :
  plain_char c = true -> escape_ascii c = String c EmptyString.
Proof.
  destruct c as [[] [] [] [] [] [] [] []]; vm_compute; intros H;
    first [reflexivity | discriminate H].
Qed.

Lemma encode_basestring_ascii_plain (s : string) :
  plain s = true -> encode_basestring_ascii s = quoted s.
Proof.
  intros Hs. unfold encode_basestring_ascii, quoted. rewrite !string_app_cons. f_equal. f_equal.
  induction s as [|c s IH]; [reflexivity|].
  cbn [plain] in Hs. apply andb_prop in Hs as [Hc Hs].
  cbn [concat_map]. rewrite (escape_ascii_plain c Hc), (IH Hs). reflexivity.
Qed.

Lemma printable_char_not_newline (c : ascii) :
  printable_char c = true -> Ascii.eqb c "010"%char = false.
Proof.
  intros Hc. destruct (Ascii.eqb_spec c "010"%char) as [->|]; [discriminate Hc | reflexivity].
Qed.

Lemma string_app_nil_r (a : string) : a +:+ EmptyString = a.
Proof.
  induction a as [|c a IH]; [reflexivity|]. rewrite string_app_cons. f_equal. exact IH.
Qed.

Lemma split_lines_line (t : string) (pending rest : string) :
  printable t = true ->
  split_lines pending (t +:+ newline +:+ rest) =
  (pending +:+ t) :: split_lines EmptyString rest.
Proof.
  revert pending. induction t as [|c t IH]; intros pending Ht.
  - rewrite string_app_nil_r. reflexivity.
  - cbn [printable] in Ht. apply andb_prop in Ht as [Hc Ht].
    rewrite string_app_cons. cbn [split_lines].
    rewrite (printable_char_not_newline c Hc), (IH _ Ht), string_app_assoc. reflexivity.
Qed.

(** X7: the text of a line.  When the process has started with a name
    that is plain text (printable ASCII without quote or backslash, as an
    identifier is), every chunk of a response body is, for some record of
    the batch on which the function returned: an opening brace, the key
    [x] in quotes, a colon, the record's [x] as [json.dumps] writes a
    float, a comma, the configured name in quotes, a colon, the result as
    [json.dumps] writes it, a closing brace and a newline, with nothing in
    between. *)
Theorem body_line_format
    (math : module) (environ : gmap string string) (g : globals)
    (values : list Value) (line : string) :
  math !! "x" = None ->
  start math environ = Serving g ->
  plain (expression g) = true ->
  line ∈ body (stream_response (calculate g values)) ->
  exists value r,
    value ∈ values /\
    call (fn g) [VFloat (x value)] = Ok r /\
    line = "{" +:+ quoted "x" +:+ ":" +:+ floatstr (x value) +:+ "," +:+
           quoted (expression g) +:+ ":" +:+ json_encode r +:+ "}" +:+ newline.
Proof.
  intros Hx Hstart Hplain Hline.
  rewrite stream_response_calculate in Hline. cbn [body] in Hline.
  apply list_elem_of_fmap in Hline as (d & -> & Hd).
  destruct (yielded_record math environ g values d Hx Hstart Hd)
    as (_ & value & r & Hin & Hcall & ->).
  exists value, r. split; [assumption|]. split; [assumption|].
  rewrite ndjson_line_text. unfold json_dumps, json_item.
  cbn [List.map String.concat fst snd json_encode].
  rewrite (encode_basestring_ascii_plain _ Hplain), !string_app_assoc. reflexivity.
Qed.

Lemma body_line_format_witness :
  let values := [ {| x := 0.5 |}; {| x := -1 |}; {| x := 2.25 |} ] in
  let line := "{" +:+ quoted "x" +:+ ":2.25," +:+ quoted "sqrt" +:+ ":1.5}" +:+ newline in
  math.module !! "x" = None /\
  start math.module {[ "EXPR" := "sqrt" ]} = Serving sqrt_globals /\
  plain (expression sqrt_globals) = true /\
  line ∈ body (stream_response (calculate sqrt_globals values)) /\
  exists value r,
    value ∈ values /\
    call math.sqrt [VFloat (x value)] = Ok r /\
    line = "{" +:+ quoted "x" +:+ ":" +:+ floatstr (x value) +:+ "," +:+
           quoted "sqrt" +:+ ":" +:+ json_encode r +:+ "}" +:+ newline.
Proof.
  cbv zeta.
  assert (Hx : math.module !! "x" = None) by reflexivity.
  assert (Hstart : start math.module {[ "EXPR" := "sqrt" ]} = Serving sqrt_globals)
    by reflexivity.
  assert (Hplain : plain (expression sqrt_globals) = true) by reflexivity.
  assert (Hline : ("{" +:+ quoted "x" +:+ ":2.25," +:+ quoted "sqrt" +:+ ":1.5}" +:+ newline)
                  ∈ body (stream_response
                            (calculate sqrt_globals
                               [ {| x := 0.5 |}; {| x := -1 |}; {| x := 2.25 |} ]))).
  { vm_compute. apply list_elem_of_further, list_elem_of_here. }
  repeat (split; [assumption|]).
  exact (body_line_format math.module _ sqrt_globals _ _ Hx Hstart Hplain Hline).
Defined.

(** X8: the body can be read back whatever the chunking.  Cutting the
    bytes received at the line breaks gives back, for every batch and
    also for a run that ended in an error, exactly the JSON texts of the
    records yielded, one for each and in order: no text holds a line
    break, none is lost and none is split. *)
Theorem body_splits_into_records (g : globals) (values : list Value) :
  split_lines EmptyString (received (body (stream_response (calculate g values)))) =
  List.map json_dumps (yielded (calculate_iter g values)).
Proof.
  rewrite stream_response_calculate. cbn [body].
  induction (yielded (calculate_iter g values)) as [|d ds IH]; [reflexivity|].
  cbn [List.map].
  change (received (ndjson_line d :: List.map ndjson_line ds))
    with (ndjson_line d +:+ received (List.map ndjson_line ds)).
  rewrite ndjson_line_text, string_app_assoc.
  rewrite (split_lines_line _ _ _ (printable_json_dumps d)), IH. reflexivity.
Qed.

(** X9: what a failed start tells.  The class of the exception that
    ends the import names its cause: a [TypeError] means that [EXPR] is
    not set or names an attribute that is not callable, an
    [AttributeError] that the module has no attribute of that name, a
    [ValueError] that the function has no signature to inspect, and an
    [AssertionError] that its signature has a number of parameters other
    than one; no other class ends the import. *)
Theorem startup_failure_cause (math : module) (environ : gmap string string) (e : exn) :
  start math environ = Crashed e ->
  match exn_class e with
  | TypeError =>
      environ !! "EXPR" = None \/
      exists name v, environ !! "EXPR" = Some name /\ math !! name = Some (Data v)
  | AttributeError =>
      exists name, environ !! "EXPR" = Some name /\ math !! name = None
  | ValueError =>
      exists name b, environ !! "EXPR" = Some name /\ math !! name = Some (Builtin b) /\
                     text_signature b = None
  | AssertionError =>
      exists name b ps, environ !! "EXPR" = Some name /\ math !! name = Some (Builtin b) /\
                        text_signature b = Some ps /\ List.length ps <> 1%nat /\
                        exn_args e = "Function " +:+ name +:+ " doesn't expect exactly one argument"
  | _ => False
  end.
Proof.
  unfold start. rewrite module_body_cases.
  destruct (environ !! "EXPR") as [name|] eqn:Henv; [|intros [= <-]; left; reflexivity].
  destruct (math !! name) as [[v|b]|] eqn:Hattr.
  - intros [= <-]. right. eauto.
  - destruct (text_signature b) as [[|p [|p' ps]]|] eqn:Hsig; intros [= <-]; cbn.
    + exists name, b, []. repeat split; auto.
    + exists name, b, (p :: p' :: ps). repeat split; auto.
    + eauto.
  - intros [= <-]. cbn. eauto.
Qed.

Lemma startup_failure_cause_witness :
  let e := mk_exn AssertionError "Function copysign doesn't expect exactly one argument" in
  start math.module {[ "EXPR" := "copysign" ]} = Crashed e /\
  exists name b ps,
    ({[ "EXPR" := "copysign" ]} : gmap string string) !! "EXPR" = Some name /\
    math.module !! name = Some (Builtin b) /\
    text_signature b = Some ps /\ List.length ps <> 1%nat /\
    exn_args e = "Function " +:+ name +:+ " doesn't expect exactly one argument".
Proof.
  cbv zeta.
  assert (H : start math.module {[ "EXPR" := "copysign" ]} =
              Crashed (mk_exn AssertionError
                         "Function copysign doesn't expect exactly one argument"))
    by reflexivity.
  split; [exact H|].
  exact (startup_failure_cause math.module _ _ H).
Defined.
